(** * cf-redis-broker: instance repository and backup pipeline

    A shallow embedding of [backup/backup.go] and of the local instance
    repository exercised by [redis/local_repository_test.go].

    Go values are modelled as follows.
    - [error] is [option Error] ([None] is [nil]); a Go pair [(T, error)] is
      [result T].
    - [[]byte] is [list Byte.byte]; [string] is [string]; [int] is [Z].
    - a file path is kept as its list of components, so that [path.Join]
      appends components; [path_string] renders it.
    - the machine the code runs on is a [World]: a directory tree, the paths
      the kernel refuses to serve, and the trace of every call the code
      makes to the operating system, to its collaborators and to its logger.
    - code that talks to the world lives in the state monad [M]. *)

From stdpp Require Import base option list strings gmap fin_maps.
From Stdlib Require Import ZArith DecimalString DecimalZ.
From Stdlib.Strings Require Import Byte.

Local Open Scope string_scope.
Local Open Scope list_scope.

(** ** Go values *)

Abbreviation bytes := (list Byte.byte).
Abbreviation fpath := (list string).

(** [syscall.Errno], the values that matter here. *)
Inductive Errno := ENOENT | EEXIST | ENOTEMPTY | EACCES | ENOTDIR | EISDIR | EIO.

(** A non-nil Go [error]: an [*os.PathError] or an error of a collaborator. *)
Inductive Error :=
| PathError (op : string) (p : fpath) (errno : Errno)
| OtherError (msg : string).

Inductive result (T : Type) :=
| Ok (v : T)
| Err (e : Error).
Arguments Ok {T} v.
Arguments Err {T} e.

Definition is_Ok {T} (r : result T) : bool :=
  match r with Ok _ => true | Err _ => false end.

(** [os.IsExist] and [os.IsNotExist] of the Go standard library: they look
    through a [*PathError] at the errno below. *)
Definition os_IsExist (err : option Error) : bool :=
  match err with
  | Some (PathError _ _ EEXIST) | Some (PathError _ _ ENOTEMPTY) => true
  | _ => false
  end.

Definition os_IsNotExist (err : option Error) : bool :=
  match err with
  | Some (PathError _ _ ENOENT) => true
  | _ => false
  end.

(** [path.Join] on clean paths, and the text of a path. *)
Definition path_Join (dir : fpath) (elems : fpath) : fpath := dir ++ elems.

Definition path_string (p : fpath) : string :=
  match p with
  | [] => "/"
  | _ => foldr (λ c acc, "/" +:+ c +:+ acc) "" p
  end.

(** The conversions [string(b)] and [[]byte(s)]. *)
Definition go_string (b : bytes) : string := Stdlib.Strings.String.string_of_list_byte b.

Definition go_bytes (s : string) : bytes := Stdlib.Strings.String.list_byte_of_string s.

(** [strconv.Itoa] and [strconv.Atoi] on decimal text. *)
Definition strconv_Itoa (n : Z) : string := NilZero.string_of_int (Z.to_int n).

Definition strconv_Atoi (s : string) : option Z :=
  Z.of_int <$> NilZero.int_of_string s.

(** ** Collaborators' data

    The packages [redisconf], [s3bucket], [redis/client] and [brokerconfig]
    are used by the sources but are not among them. Their data is declared
    here from the way the sources use it; what their operations answer is
    left open (see [Collaborators]). *)

Module redisconf.
(** Modelled from the spec: the type [redisconf.Conf] is not among the
    sources. A configuration is the ordered list of the parameters of the
    file ("key value" lines). *)
Record Param := mkParam { Key : string; Value : string }.
Abbreviation Conf := (list Param).

(** Modelled from the spec: [Conf.Get] is not among the sources; the value
    of the first parameter of that name, or the empty string. *)
Definition Get (conf : Conf) (key : string) : string :=
  match List.find (λ p, String.eqb (Key p) key) conf with
  | Some p => Value p
  | None => ""
  end.

(** Modelled from the spec: [Conf.Set], called by [backup.go], is not among
    the sources; "config.Set(key, value)" overrides the parameter of that
    name, or adds it. *)
Fixpoint Set_ (conf : Conf) (key value : string) : Conf :=
  match conf with
  | [] => [mkParam key value]
  | p :: rest =>
      if String.eqb (Key p) key then mkParam key value :: rest
      else p :: Set_ rest key value
  end.
End redisconf.

Module s3bucket.
(** Modelled from the spec: the types of package [s3bucket] are not among
    the sources; "NewClient(endpoint, region, accessKey, secretKey)" and the
    bucket that [GetOrCreate] returns. *)
Record Client := NewClient
  { endpoint : string; region : string; accessKey : string; secretKey : string }.
Record Bucket := mkBucket { Name : string; Owner : Client }.
End s3bucket.

Module client.
(** Modelled from the spec: the type [client.Client] is not among the
    sources; a client is connected to a host with a configuration. *)
Record Client := mkClient { host : string; conf : redisconf.Conf }.
End client.

(** The lines of [lager.Logger]. *)
Module lager.
Inductive Level := INFO | ERROR.
Abbreviation Data := (list (string * string)).
Record Line := mkLine
  { level : Level; action : string; err : option Error; data : Data }.
End lager.

(** ** The world *)

Inductive Node := File (content : bytes) | Dir.

Record FileInfo := mkFileInfo { fi_Name : string; fi_IsDir : bool }.

Inductive Event :=
| EvStat (p : fpath)
| EvReadFile (p : fpath)
| EvWriteFile (p : fpath) (content : bytes)
| EvMkdirAll (p : fpath)
| EvRemoveAll (p : fpath)
| EvReadDir (p : fpath)
| EvGetOrCreate (c : s3bucket.Client) (bucketName : string)
| EvUpload (b : s3bucket.Bucket) (content : bytes) (remotePath : string)
| EvConnect (host : string) (conf : redisconf.Conf)
| EvCreateSnapshot (c : client.Client) (timeout : Z)
| EvLog (l : lager.Line).

Record World := mkWorld
  { w_fs : gmap fpath Node;        (* the directory tree, by absolute path *)
    w_denied : gmap fpath Errno;   (* paths the kernel refuses, and with which errno *)
    w_trace : list Event }.        (* calls made so far, oldest first *)

(** What the collaborators answer. Nothing is assumed about them: every
    theorem below holds for all of them. *)
Class Collaborators := mkCollaborators
  { s3_GetOrCreate : s3bucket.Client → string → result s3bucket.Bucket;
    s3_Upload : s3bucket.Bucket → bytes → string → option Error;
    redisconf_parse : bytes → result redisconf.Conf;
    redisconf_print : redisconf.Conf → bytes;
    client_Connect : string → redisconf.Conf → result client.Client;
    (* the data store persists its dataset: it may rewrite the tree *)
    client_CreateSnapshot :
      client.Client → Z → gmap fpath Node → option Error * gmap fpath Node }.

(** ** The state monad of the code *)

Definition M (A : Type) : Type := World → A * World.

Definition ret {A} (a : A) : M A := λ w, (a, w).

Definition bind {A B} (m : M A) (k : A → M B) : M B :=
  λ w, let '(a, w') := m w in k a w'.

Notation "x <-- m ;; k" := (bind m (λ x, k))
  (at level 100, m at next level, right associativity).
Notation "m ;;; k" := (bind m (λ _, k))
  (at level 100, right associativity).

Definition emit (ev : Event) : M unit :=
  λ w, (tt, mkWorld (w_fs w) (w_denied w) (w_trace w ++ [ev])).

Definition with_fs (f : gmap fpath Node → gmap fpath Node) : M unit :=
  λ w, (tt, mkWorld (f (w_fs w)) (w_denied w) (w_trace w)).

Definition ask {A} (f : World → A) : M A := λ w, (f w, w).

(** ** The operating system *)

(** The root always exists. *)
Definition node_at (fs : gmap fpath Node) (p : fpath) : option Node :=
  match p with [] => Some Dir | _ => fs !! p end.

Definition parent (p : fpath) : fpath := removelast p.

Definition base (p : fpath) : string := List.last p "/".

Fixpoint is_prefix (p q : fpath) : bool :=
  match p, q with
  | [], _ => true
  | a :: p', b :: q' => String.eqb a b && is_prefix p' q'
  | _ :: _, [] => false
  end.

(** The outcome of a call on [p]: the kernel's refusal when there is one,
    otherwise what the tree says. *)
Definition stat_of (w : World) (p : fpath) : result FileInfo :=
  match w_denied w !! p with
  | Some e => Err (PathError "stat" p e)
  | None =>
      match node_at (w_fs w) p with
      | Some (File _) => Ok (mkFileInfo (base p) false)
      | Some Dir => Ok (mkFileInfo (base p) true)
      | None => Err (PathError "stat" p ENOENT)
      end
  end.

Definition read_of (w : World) (p : fpath) : result bytes :=
  match w_denied w !! p with
  | Some e => Err (PathError "open" p e)
  | None =>
      match node_at (w_fs w) p with
      | Some (File content) => Ok content
      | Some Dir => Err (PathError "read" p EISDIR)
      | None => Err (PathError "open" p ENOENT)
      end
  end.

Definition os_Stat (p : fpath) : M (result FileInfo) :=
  emit (EvStat p) ;;; ask (λ w, stat_of w p).

Definition ioutil_ReadFile (p : fpath) : M (result bytes) :=
  emit (EvReadFile p) ;;; ask (λ w, read_of w p).

(** [ioutil.WriteFile]: create or truncate, then write everything. The
    directory that holds the file has to be there. *)
Definition ioutil_WriteFile (p : fpath) (content : bytes) : M (option Error) :=
  emit (EvWriteFile p content) ;;;
  w <-- ask id ;;
  match w_denied w !! p with
  | Some e => ret (Some (PathError "open" p e))
  | None =>
      match node_at (w_fs w) (parent p), node_at (w_fs w) p with
      | Some Dir, Some Dir => ret (Some (PathError "open" p EISDIR))
      | Some Dir, _ => with_fs (insert p (File content)) ;;; ret None
      | Some (File _), _ => ret (Some (PathError "open" p ENOTDIR))
      | None, _ => ret (Some (PathError "open" p ENOENT))
      end
  end.

(** [os.MkdirAll]: make the directory and every missing ancestor; a
    directory that is already there is left as it is. *)
Fixpoint mkdir_all (pre : fpath) (rest : fpath) (fs : gmap fpath Node)
  : option Error * gmap fpath Node :=
  match rest with
  | [] => (None, fs)
  | c :: rest' =>
      let d := pre ++ [c] in
      match fs !! d with
      | Some (File _) => (Some (PathError "mkdir" d ENOTDIR), fs)
      | Some Dir => mkdir_all d rest' fs
      | None => mkdir_all d rest' (<[d := Dir]> fs)
      end
  end.

Definition os_MkdirAll (p : fpath) : M (option Error) :=
  emit (EvMkdirAll p) ;;;
  w <-- ask id ;;
  match w_denied w !! p with
  | Some e => ret (Some (PathError "mkdir" p e))
  | None =>
      let '(err, fs') := mkdir_all [] p (w_fs w) in
      with_fs (λ _, fs') ;;; ret err
  end.

(** [os.RemoveAll]: remove the path and everything below it; a path that
    is not there is no error. *)
Definition remove_all (p : fpath) (fs : gmap fpath Node) : gmap fpath Node :=
  filter (λ kv, is_prefix p kv.1 = false) fs.

Definition os_RemoveAll (p : fpath) : M (option Error) :=
  emit (EvRemoveAll p) ;;;
  w <-- ask id ;;
  match w_denied w !! p with
  | Some ENOENT => ret None
  | Some e => ret (Some (PathError "unlinkat" p e))
  | None => with_fs (remove_all p) ;;; ret None
  end.

(** [ioutil.ReadDir]: the entries directly below a directory. *)
Definition children (fs : gmap fpath Node) (p : fpath) : list FileInfo :=
  omap (λ kv : fpath * Node,
          if bool_decide (kv.1 ≠ [] ∧ parent kv.1 = p)
          then Some (mkFileInfo (base kv.1)
                       (match kv.2 with Dir => true | File _ => false end))
          else None)
       (map_to_list fs).

Definition readdir_of (w : World) (p : fpath) : result (list FileInfo) :=
  match w_denied w !! p with
  | Some e => Err (PathError "open" p e)
  | None =>
      match node_at (w_fs w) p with
      | Some Dir => Ok (children (w_fs w) p)
      | Some (File _) => Err (PathError "readdirent" p ENOTDIR)
      | None => Err (PathError "open" p ENOENT)
      end
  end.

Definition ioutil_ReadDir (p : fpath) : M (result (list FileInfo)) :=
  emit (EvReadDir p) ;;; ask (λ w, readdir_of w p).

(** ** Logging ([lager.Logger]) *)

Definition Logger_Info (action : string) (data : lager.Data) : M unit :=
  emit (EvLog (lager.mkLine lager.INFO action None data)).

Definition Logger_Error (action : string) (err : Error) (data : lager.Data) : M unit :=
  emit (EvLog (lager.mkLine lager.ERROR action (Some err) data)).

(** ** Broker configuration ([brokerconfig]) *)

Module brokerconfig.
(** Modelled from the spec: the declarations of package [brokerconfig] are
    not among the sources; the fields are those that [backup.go] and the
    tests of the repository read and set. *)
Record Backup_Configuration := mkBackupConfiguration
  { EndpointUrl : string;
    BucketName : string;
    AccessKeyId : string;
    SecretAccessKey : string;
    S3Region : string;
    Path : string;
    BGSaveTimeoutSeconds : Z }.

Record ServiceConfiguration := mkServiceConfiguration
  { Host : string;
    DefaultConfigPath : fpath;
    InstanceDataDirectory : fpath;
    PidfileDirectory : fpath;
    InstanceLogDirectory : fpath;
    BackupConfiguration : Backup_Configuration }.

Record Config := mkConfig { RedisConfiguration : ServiceConfiguration }.
End brokerconfig.

(** ** Calls to the collaborators *)

Section Calls.
Context `{Collaborators}.

(** What [redisconf.Load] returns for [p] in [w]. *)
Definition load_of (w : World) (p : fpath) : result redisconf.Conf :=
  match read_of w p with
  | Err e => Err e
  | Ok content => redisconf_parse content
  end.

(** Modelled from the spec: [redisconf.Load], of package [redisconf], is
    not among the sources; "Load(path) -> (config, error)" reads the file
    and parses it. *)
Definition redisconf_Load (p : fpath) : M (result redisconf.Conf) :=
  emit (EvReadFile p) ;;; ask (λ w, load_of w p).

Definition s3bucket_GetOrCreate (c : s3bucket.Client) (bucketName : string)
  : M (result s3bucket.Bucket) :=
  emit (EvGetOrCreate c bucketName) ;;; ret (s3_GetOrCreate c bucketName).

Definition bucket_Upload (b : s3bucket.Bucket) (content : bytes) (remotePath : string)
  : M (option Error) :=
  emit (EvUpload b content remotePath) ;;; ret (s3_Upload b content remotePath).

Definition client_Connect_ (host : string) (conf : redisconf.Conf)
  : M (result client.Client) :=
  emit (EvConnect host conf) ;;; ret (client_Connect host conf).

Definition client_CreateSnapshot_ (c : client.Client) (timeout : Z) : M (option Error) :=
  emit (EvCreateSnapshot c timeout) ;;;
  w <-- ask id ;;
  let '(err, fs') := client_CreateSnapshot c timeout (w_fs w) in
  with_fs (λ _, fs') ;;; ret err.
End Calls.

(** ** backup/backup.go *)

Module backup.
Section Backup.
Context `{Collaborators}.
Import brokerconfig.

(** The [Logger] field is the log of the world. *)
Record Backup := mkBackup { Config : brokerconfig.Config }.

Definition backupConfiguration (backup : Backup) : Backup_Configuration :=
  BackupConfiguration (RedisConfiguration (Config backup)).

Definition fileExists (path : fpath) : M bool :=
  r <-- os_Stat path ;;
  let err := match r with Ok _ => None | Err e => Some e end in
  ret (bool_decide (err = None) || os_IsExist err).

Definition getOrCreateBucket (backup : Backup) : M (result s3bucket.Bucket) :=
  let s3Client := s3bucket.NewClient
    (EndpointUrl (backupConfiguration backup))
    (S3Region (backupConfiguration backup))
    (AccessKeyId (backupConfiguration backup))
    (SecretAccessKey (backupConfiguration backup)) in
  s3bucket_GetOrCreate s3Client (BucketName (backupConfiguration backup)).

Definition buildRedisClient (backup : Backup) (instancePath : fpath)
  : M (result client.Client) :=
  let instanceConfPath := path_Join instancePath ["redis.conf"] in
  r <-- redisconf_Load instanceConfPath ;;
  match r with
  | Err err => ret (Err err)
  | Ok instanceConf =>
      r <-- ioutil_ReadFile (path_Join instancePath ["redis-server.port"]) ;;
      match r with
      | Err err => ret (Err err)
      | Ok port =>
          let instanceConf :=
            redisconf.Set_ instanceConf "port" (go_string port) in
          r <-- ioutil_ReadFile (path_Join instancePath ["redis-server.password"]) ;;
          match r with
          | Err err => ret (Err err)
          | Ok password =>
              let instanceConf :=
                redisconf.Set_ instanceConf "requirepass" (go_string password) in
              client_Connect_ (Host (RedisConfiguration (Config backup))) instanceConf
          end
      end
  end.

Definition createSnapshot (backup : Backup) (instancePath : fpath) : M (option Error) :=
  r <-- buildRedisClient backup instancePath ;;
  match r with
  | Err err => ret (Some err)
  | Ok client =>
      client_CreateSnapshot_ client (BGSaveTimeoutSeconds (backupConfiguration backup))
  end.

Definition uploadToS3 (backup : Backup) (instanceID : string) (pathToRdbFile : fpath)
    (bucket : s3bucket.Bucket) : M (option Error) :=
  r <-- ioutil_ReadFile pathToRdbFile ;;
  match r with
  | Err err => ret (Some err)
  | Ok rdbBytes =>
      let remotePath := Path (backupConfiguration backup) +:+ "/" +:+ instanceID in
      Logger_Info "Backing up instance"
        [("Local file", path_string pathToRdbFile); ("Remote file", remotePath)] ;;;
      bucket_Upload bucket rdbBytes remotePath
  end.

Definition Create (backup : Backup) (instancePath : fpath) (instanceID : string)
  : M (option Error) :=
  r <-- getOrCreateBucket backup ;;
  match r with
  | Err err => ret (Some err)
  | Ok bucket =>
      err <-- createSnapshot backup instancePath ;;
      match err with
      | Some err => ret (Some err)
      | None =>
          let pathToRdbFile := path_Join instancePath ["db"; "dump.rdb"] in
          exists_ <-- fileExists pathToRdbFile ;;
          if negb exists_ then
            Logger_Info "dump.rdb not found, skipping instance backup"
              [("Local file", path_string pathToRdbFile)] ;;;
            ret None
          else
            uploadToS3 backup instanceID pathToRdbFile bucket
      end
  end.
End Backup.
End backup.

(** ** The local instance repository ([redis.LocalRepository])

    [redis/local_repository.go] is not among the sources; its tests are.
    The operations below are modelled from the specification, on the
    on-disk layout it gives:
<<
    <dataDir>/<id>/redis.conf   merged configuration
    <dataDir>/<id>/db/          working directory of the data store
    <logDir>/<id>/              log output directory
    <pidDir>/<id>.pid           process id file
>>
    The helpers [newTestInstance] and [writeInstance] are those of
    [redis/local_repository_test.go]. *)

Module redis.
Section Repository.
Context `{Collaborators}.

(** Modelled from the spec: an Instance has the fields "ID, Host, Port,
    Password"; the tests build it with these. *)
Record Instance := mkInstance
  { ID : string; Host : string; Port : Z; Password : string }.

(** Modelled from the spec: the repository "depends only on its configured
    root paths and a logging sink"; the tests build it from a
    [brokerconfig.ServiceConfiguration]. The [Logger] field is the log of
    the world. *)
Record LocalRepository := NewLocalRepository
  { RedisConf : brokerconfig.ServiceConfiguration }.

(** *** Path accessors (no IO) *)

(** Modelled from the spec: [<dataDir>/<id>], the directory of the instance. *)
Definition InstanceBaseDir (repo : LocalRepository) (instanceID : string) : fpath :=
  path_Join (brokerconfig.InstanceDataDirectory (RedisConf repo)) [instanceID].

(** Modelled from the spec: [<dataDir>/<id>/db], where the tests seed
    [appendonly.aof]. *)
Definition InstanceDataDir (repo : LocalRepository) (instanceID : string) : fpath :=
  path_Join (InstanceBaseDir repo instanceID) ["db"].

(** Modelled from the spec: [<logDir>/<id>]. *)
Definition InstanceLogDir (repo : LocalRepository) (instanceID : string) : fpath :=
  path_Join (brokerconfig.InstanceLogDirectory (RedisConf repo)) [instanceID].

(** Modelled from the spec: [<dataDir>/<id>/redis.conf]. *)
Definition InstanceConfigPath (repo : LocalRepository) (instanceID : string) : fpath :=
  path_Join (InstanceBaseDir repo instanceID) ["redis.conf"].

(** Modelled from the spec: [<pidDir>/<id>.pid]. *)
Definition InstancePidFilePath (repo : LocalRepository) (instanceID : string) : fpath :=
  path_Join (brokerconfig.PidfileDirectory (RedisConf repo)) [instanceID +:+ ".pid"].

(** *** Writing *)

(** Modelled from the spec: [EnsureDirectoriesExist] "idempotently creates
    the data directory (including its db subdirectory) and the log
    directory for the given id", and fails when a creation fails. *)
Definition EnsureDirectoriesExist (repo : LocalRepository) (instance : Instance)
  : M (option Error) :=
  err <-- os_MkdirAll (InstanceDataDir repo (ID instance)) ;;
  match err with
  | Some err => ret (Some err)
  | None => os_MkdirAll (InstanceLogDir repo (ID instance))
  end.

(** Modelled from the spec: the overrides laid over the default template,
    "at minimum a unique server-name derived from the id, and the instance's
    working/log directory paths", and the values an [Instance] is rebuilt
    from. The specification names the keys [port] and [requirepass]; the
    other key names are redis directives and no theorem depends on their
    spelling. *)
Definition instanceAdditions (repo : LocalRepository) (instance : Instance)
    (conf : redisconf.Conf) : redisconf.Conf :=
  let conf := redisconf.Set_ conf "syslog-ident" ("redis-server-" +:+ ID instance) in
  let conf := redisconf.Set_ conf "dir" (path_string (InstanceDataDir repo (ID instance))) in
  let conf := redisconf.Set_ conf "logfile"
    (path_string (path_Join (InstanceLogDir repo (ID instance)) ["redis-server.log"])) in
  let conf := redisconf.Set_ conf "bind" (Host instance) in
  let conf := redisconf.Set_ conf "port" (strconv_Itoa (Port instance)) in
  redisconf.Set_ conf "requirepass" (Password instance).

(** Modelled from the spec: [WriteConfigFile] "merges the default
    configuration template with instance-specific overrides and writes
    the result to the instance's configuration path, fully replacing any
    prior contents. Fails if the default template is unreadable or fails
    to parse". *)
Definition WriteConfigFile (repo : LocalRepository) (instance : Instance)
  : M (option Error) :=
  r <-- redisconf_Load (brokerconfig.DefaultConfigPath (RedisConf repo)) ;;
  match r with
  | Err err => ret (Some err)
  | Ok template =>
      ioutil_WriteFile (InstanceConfigPath repo (ID instance))
        (redisconf_print (instanceAdditions repo instance template))
  end.

(** *** Reading *)

(** Modelled from the spec: [FindByID] "reconstructs an Instance by reading
    its configuration file", the "authoritative Host/Port/Password
    source", and "fails with a not-found error, indistinguishable in kind
    from the filesystem's own does-not-exist signal, when the
    configuration file is absent". An [Instance] has no field for the
    process id, which [InstancePid] serves. *)
Definition FindByID (repo : LocalRepository) (instanceID : string) : M (result Instance) :=
  r <-- redisconf_Load (InstanceConfigPath repo instanceID) ;;
  match r with
  | Err err => ret (Err err)
  | Ok conf =>
      match strconv_Atoi (redisconf.Get conf "port") with
      | None => ret (Err (OtherError ("strconv.Atoi: parsing port of " +:+ instanceID)))
      | Some port =>
          ret (Ok (mkInstance instanceID (redisconf.Get conf "bind") port
                     (redisconf.Get conf "requirepass")))
      end
  end.

(** Modelled from the spec: [InstanceExists] is "true iff the configuration
    file is present and readable; returns an error only for unexpected IO
    failures (not for simple absence)". *)
Definition InstanceExists (repo : LocalRepository) (instanceID : string)
  : M (bool * option Error) :=
  r <-- ioutil_ReadFile (InstanceConfigPath repo instanceID) ;;
  match r with
  | Ok _ => ret (true, None)
  | Err err => if os_IsNotExist (Some err) then ret (false, None) else ret (false, Some err)
  end.

(** *** Deleting *)

(** The first error of a list of results, or nil. *)
Definition firstError (errs : list (option Error)) : option Error :=
  List.fold_right (λ e acc, match e with Some _ => e | None => acc end) None errs.

(** Modelled from the spec: [Delete] "removes the instance's data
    directory, pid file, and log directory, each independently; logs a
    deprovisioned event on success"; all three removals are attempted and
    "the first encountered error is what's returned". *)
Definition Delete (repo : LocalRepository) (instanceID : string) : M (option Error) :=
  e1 <-- os_RemoveAll (InstanceBaseDir repo instanceID) ;;
  e2 <-- os_RemoveAll (InstancePidFilePath repo instanceID) ;;
  e3 <-- os_RemoveAll (InstanceLogDir repo instanceID) ;;
  match firstError [e1; e2; e3] with
  | Some err => ret (Some err)
  | None =>
      Logger_Info "deprovision-instance"
        [("instance_id", instanceID);
         ("message", "Successfully deprovisioned Redis instance");
         ("plan", "shared-vm")] ;;;
      ret None
  end.

(** *** Enumerating *)

(** Modelled from the spec: the scan-lifecycle messages, "Starting shared
    instance lookup in data directory: <dir>", "Found shared instance:
    <id>", "Error getting instance details for instance ID: <id>", "<n>
    shared Redis instance(s) found" (the tests read "1 shared Redis
    instance found" and "3 shared Redis instances found") and "Error
    finding shared instances". *)
Definition startLine (dir : fpath) : lager.Line :=
  lager.mkLine lager.INFO
    ("Starting shared instance lookup in data directory: " +:+ path_string dir) None [].

Definition foundLine (instanceID : string) : lager.Line :=
  lager.mkLine lager.INFO ("Found shared instance: " +:+ instanceID) None [].

Definition errorLine (instanceID : string) (err : Error) : lager.Line :=
  lager.mkLine lager.ERROR
    ("Error getting instance details for instance ID: " +:+ instanceID) (Some err) [].

Definition countLine (n : nat) : lager.Line :=
  lager.mkLine lager.INFO
    (strconv_Itoa (Z.of_nat n) +:+ " shared Redis instance"
       +:+ (if Nat.eqb n 1 then "" else "s") +:+ " found") None [].

Definition listingErrorLine (err : Error) : lager.Line :=
  lager.mkLine lager.ERROR "Error finding shared instances" (Some err) [].

Definition when (b : bool) (m : M unit) : M unit := if b then m else ret tt.

(** Modelled from the spec: the loop of the scan over the instance
    directories, with its two accumulators; "a single bad instance must
    never prevent the remaining instances from being returned". *)
Fixpoint scanInstances (repo : LocalRepository) (verbose : bool) (dirs : list string)
    (instances : list Instance) (errs : list Error)
  : M (list Instance * list Error) :=
  match dirs with
  | [] => ret (instances, errs)
  | instanceID :: rest =>
      r <-- FindByID repo instanceID ;;
      match r with
      | Err err =>
          emit (EvLog (errorLine instanceID err)) ;;;
          scanInstances repo verbose rest instances (errs ++ [err])
      | Ok instance =>
          when verbose (emit (EvLog (foundLine instanceID))) ;;;
          scanInstances repo verbose rest (instances ++ [instance]) errs
      end
  end.

(** Modelled from the spec: the scan is over "every subdirectory of the
    data directory". *)
Definition subdirectories (entries : list FileInfo) : list string :=
  fi_Name <$> List.filter fi_IsDir entries.

(** Modelled from the spec: the scan behind [AllInstances] and
    [AllInstancesVerbose] is to "enumerate every subdirectory of the data
    directory, attempt FindByID on each, and return the successfully
    reconstructed instances together with a separate list of one error
    per failed entry"; the verbose variant "additionally emits" the
    start-of-scan, per-found-instance and count lines. That a failure is
    logged by both variants is what the repository's tests require of
    [AllInstances] ("logs the error", with the messages "Error getting
    instance details for instance ID: <id>" and "Error finding shared
    instances"). *)
Definition allInstances (repo : LocalRepository) (verbose : bool)
  : M (list Instance * list Error) :=
  let dataDir := brokerconfig.InstanceDataDirectory (RedisConf repo) in
  when verbose (emit (EvLog (startLine dataDir))) ;;;
  r <-- ioutil_ReadDir dataDir ;;
  match r with
  | Err err =>
      emit (EvLog (listingErrorLine err)) ;;;
      ret ([], [err])
  | Ok entries =>
      out <-- scanInstances repo verbose (subdirectories entries) [] [] ;;
      when verbose (emit (EvLog (countLine (length out.1)))) ;;;
      ret out
  end.

(** Modelled from the spec: the two variants of the scan. *)
Definition AllInstances (repo : LocalRepository) : M (list Instance * list Error) :=
  allInstances repo false.

Definition AllInstancesVerbose (repo : LocalRepository) : M (list Instance * list Error) :=
  allInstances repo true.

(** *** The helpers of the tests *)

(** [writeInstance] of [local_repository_test.go]; each [Expect(..).To(Succeed())]
    stops at a failure. *)
Definition writeInstance (instance : Instance) (repo : LocalRepository) : M (option Error) :=
  err <-- EnsureDirectoriesExist repo instance ;;
  match err with
  | Some err => ret (Some err)
  | None =>
      err <-- WriteConfigFile repo instance ;;
      match err with
      | Some err => ret (Some err)
      | None =>
          let pid := go_bytes "1234" in
          ioutil_WriteFile (InstancePidFilePath repo (ID instance)) pid
      end
  end.

Definition newTestInstance (instanceID : string) (repo : LocalRepository)
  : M (Instance * option Error) :=
  let instance := mkInstance instanceID "127.0.0.1" 8080 "" in
  err <-- writeInstance instance repo ;;
  ret (instance, err).

(** The write path: [EnsureDirectoriesExist] then [WriteConfigFile]. *)
Definition writePath (repo : LocalRepository) (instance : Instance) : M (option Error) :=
  err <-- EnsureDirectoriesExist repo instance ;;
  match err with
  | Some err => ret (Some err)
  | None => WriteConfigFile repo instance
  end.
End Repository.
End redis.

(** The events a computation adds to the trace. *)
Definition new_events {A} (m : M A) (w : World) : list Event :=
  drop (length (w_trace w)) (w_trace (m w).2).

(** ** A concrete machine, to run the code on

    A line-based configuration syntax ("key value" per line) and
    collaborators whose failures are chosen by the caller. The theorems do
    not depend on them; the examples at the end of the file do. *)

Module demo.
Definition newline : Ascii.ascii := Ascii.ascii_of_nat 10.
Definition space : Ascii.ascii := Ascii.ascii_of_nat 32.

Fixpoint lines_of (s : string) : list string :=
  match s with
  | EmptyString => [""]
  | String c s' =>
      match lines_of s' with
      | l :: ls => if Ascii.eqb c newline then "" :: l :: ls else String c l :: ls
      | [] => [String c ""]
      end
  end.

Fixpoint split_space (s : string) : option (string * string) :=
  match s with
  | EmptyString => None
  | String c s' =>
      if Ascii.eqb c space then Some ("", s')
      else (λ kv : string * string, (String c kv.1, kv.2)) <$> split_space s'
  end.

Fixpoint parse_lines (ls : list string) : result redisconf.Conf :=
  match ls with
  | [] => Ok []
  | l :: rest =>
      if String.eqb l "" then parse_lines rest
      else
        match split_space l, parse_lines rest with
        | Some (k, v), Ok conf => Ok (redisconf.mkParam k v :: conf)
        | None, _ => Err (OtherError ("invalid configuration line: " +:+ l))
        | _, Err e => Err e
        end
  end.

Definition parse (content : bytes) : result redisconf.Conf :=
  parse_lines (lines_of (go_string content)).

Definition print (conf : redisconf.Conf) : bytes :=
  go_bytes (foldr (λ p acc, redisconf.Key p +:+ " " +:+ redisconf.Value p
                              +:+ String newline acc) "" conf).

(** The data store, asked for a snapshot, answers [snapshotErr] and, when
    it has a dataset, leaves it at [dump]. *)
Definition collaborators (bucketErr connectErr snapshotErr uploadErr : option Error)
    (dump : option (fpath * bytes)) : Collaborators :=
  {| s3_GetOrCreate c bucketName :=
       match bucketErr with
       | Some e => Err e
       | None => Ok (s3bucket.mkBucket bucketName c)
       end;
     s3_Upload _ _ _ := uploadErr;
     redisconf_parse := parse;
     redisconf_print := print;
     client_Connect host conf :=
       match connectErr with
       | Some e => Err e
       | None => Ok (client.mkClient host conf)
       end;
     client_CreateSnapshot _ _ fs :=
       match snapshotErr, dump with
       | Some e, _ => (Some e, fs)
       | None, Some (p, content) => (None, <[p := File content]> fs)
       | None, None => (None, fs)
       end |}.

Definition healthy : Collaborators := collaborators None None None None None.

(** The repository of the tests and the machine they start from. *)
Definition redisConf : brokerconfig.ServiceConfiguration :=
  brokerconfig.mkServiceConfiguration "127.0.0.1"
    ["tmp"; "default_config_path"]
    ["tmp"; "repotests"; "data"]
    ["tmp"; "pidfiles"]
    ["tmp"; "repotests"; "log"]
    (brokerconfig.mkBackupConfiguration "http://s3url.com" "redis-backups"
       "ABCDEABCDEABCDEABCDE" "ABCDEABCDEABCDEABCDEABCDEABCDEABCDEABCDE"
       "france" "/home" 600).

Definition repo : redis.LocalRepository := redis.NewLocalRepository redisConf.

Definition tree0 : gmap fpath Node :=
  list_to_map
    [ (["tmp"], Dir);
      (["tmp"; "default_config_path"], File (go_bytes "daemonize yes"));
      (["tmp"; "repotests"], Dir);
      (["tmp"; "repotests"; "data"], Dir);
      (["tmp"; "repotests"; "log"], Dir);
      (["tmp"; "pidfiles"], Dir) ].

Definition world0 : World := mkWorld tree0 ∅ [].

(** The world after a computation. *)
Definition after {A} (m : M A) (w : World) : World := (m w).2.

(** Three provisioned instances, as in the tests. *)
Definition world3 : World :=
  after (@redis.newTestInstance healthy "i3" repo)
    (after (@redis.newTestInstance healthy "i2" repo)
       (after (@redis.newTestInstance healthy "i1" repo) world0)).

(** [os.Remove] of one file, for the examples. *)
Definition remove_file (p : fpath) (w : World) : World :=
  mkWorld (delete p (w_fs w)) (w_denied w) (w_trace w).

(** The same, after the configuration file of the first was removed. *)
Definition world3_broken : World :=
  remove_file (redis.InstanceConfigPath repo "i1") world3.
End demo.

(** ** Vocabulary of the statements *)

(** [w] with [evs] added to its trace, and [w] with another tree. *)
Definition record (evs : list Event) (w : World) : World :=
  mkWorld (w_fs w) (w_denied w) (w_trace w ++ evs).

Definition set_fs (fs : gmap fpath Node) (w : World) : World :=
  mkWorld fs (w_denied w) (w_trace w).

Definition is_upload (ev : Event) : bool :=
  match ev with EvUpload _ _ _ => true | _ => false end.

Definition is_connect (ev : Event) : bool :=
  match ev with EvConnect _ _ => true | _ => false end.

Definition is_snapshot (ev : Event) : bool :=
  match ev with EvCreateSnapshot _ _ => true | _ => false end.

Definition is_access (p : fpath) (ev : Event) : bool :=
  match ev with
  | EvStat q | EvReadFile q => bool_decide (q = p)
  | _ => false
  end.

Definition is_info (ev : Event) : bool :=
  match ev with
  | EvLog l => match lager.level l with lager.INFO => true | lager.ERROR => false end
  | _ => false
  end.

(** The operating system reports that nothing is at [p]. *)
Definition absent (w : World) (p : fpath) : Prop :=
  stat_of w p = Err (PathError "stat" p ENOENT).

(** No event of [evs] is of kind [k]. *)
Definition none_of (k : Event → bool) (evs : list Event) : Prop :=
  Forall (λ ev, k ev = false) evs.

Module backup_paths.
Definition conf (instancePath : fpath) : fpath := path_Join instancePath ["redis.conf"].
Definition port (instancePath : fpath) : fpath := path_Join instancePath ["redis-server.port"].
Definition password (instancePath : fpath) : fpath :=
  path_Join instancePath ["redis-server.password"].
Definition rdb (instancePath : fpath) : fpath := path_Join instancePath ["db"; "dump.rdb"].
End backup_paths.

Section BackupVocabulary.
Context `{Collaborators}.
Import brokerconfig backup.

Definition skipLine (instancePath : fpath) : lager.Line :=
  lager.mkLine lager.INFO "dump.rdb not found, skipping instance backup" None
    [("Local file", path_string (backup_paths.rdb instancePath))].

Definition remotePathOf (b : Backup) (instanceID : string) : string :=
  Path (backupConfiguration b) +:+ "/" +:+ instanceID.

Definition backingUpLine (b : Backup) (instancePath : fpath) (instanceID : string)
  : lager.Line :=
  lager.mkLine lager.INFO "Backing up instance" None
    [("Local file", path_string (backup_paths.rdb instancePath));
     ("Remote file", remotePathOf b instanceID)].

(** The configuration the client is connected with. *)
Definition overlaid (cf : redisconf.Conf) (pt pw : bytes) : redisconf.Conf :=
  redisconf.Set_ (redisconf.Set_ cf "port" (go_string pt)) "requirepass" (go_string pw).

(** Loading the configuration or reading a sidecar file fails with [e]. *)
Definition config_or_sidecar_fails (p : fpath) (w : World) (e : Error) : Prop :=
  load_of w (backup_paths.conf p) = Err e
  ∨ (is_Ok (load_of w (backup_paths.conf p)) = true
     ∧ read_of w (backup_paths.port p) = Err e)
  ∨ (is_Ok (load_of w (backup_paths.conf p)) = true
     ∧ is_Ok (read_of w (backup_paths.port p)) = true
     ∧ read_of w (backup_paths.password p) = Err e).

(** The snapshot command is issued, answers [err] and leaves the tree [fs1]. *)
Definition snapshot_command_answers (b : Backup) (p : fpath) (w : World)
    (err : option Error) (fs1 : gmap fpath Node) : Prop :=
  ∃ cf pt pw cl,
    load_of w (backup_paths.conf p) = Ok cf
    ∧ read_of w (backup_paths.port p) = Ok pt
    ∧ read_of w (backup_paths.password p) = Ok pw
    ∧ client_Connect (Host (RedisConfiguration (Config b))) (overlaid cf pt pw) = Ok cl
    ∧ client_CreateSnapshot cl (BGSaveTimeoutSeconds (backupConfiguration b)) (w_fs w)
      = (err, fs1).

(** The ways through [createSnapshot]: its result, the calls it makes and
    the tree it leaves. *)
Inductive snapshot_stage (b : Backup) (p : fpath) (w : World)
  : option Error → list Event → gmap fpath Node → Prop :=
| conf_unreadable e :
    load_of w (backup_paths.conf p) = Err e →
    snapshot_stage b p w (Some e) [EvReadFile (backup_paths.conf p)] (w_fs w)
| port_unreadable cf e :
    load_of w (backup_paths.conf p) = Ok cf →
    read_of w (backup_paths.port p) = Err e →
    snapshot_stage b p w (Some e)
      [EvReadFile (backup_paths.conf p); EvReadFile (backup_paths.port p)] (w_fs w)
| password_unreadable cf pt e :
    load_of w (backup_paths.conf p) = Ok cf →
    read_of w (backup_paths.port p) = Ok pt →
    read_of w (backup_paths.password p) = Err e →
    snapshot_stage b p w (Some e)
      [EvReadFile (backup_paths.conf p); EvReadFile (backup_paths.port p);
       EvReadFile (backup_paths.password p)] (w_fs w)
| connect_refused cf pt pw e :
    load_of w (backup_paths.conf p) = Ok cf →
    read_of w (backup_paths.port p) = Ok pt →
    read_of w (backup_paths.password p) = Ok pw →
    client_Connect (Host (RedisConfiguration (Config b))) (overlaid cf pt pw) = Err e →
    snapshot_stage b p w (Some e)
      [EvReadFile (backup_paths.conf p); EvReadFile (backup_paths.port p);
       EvReadFile (backup_paths.password p);
       EvConnect (Host (RedisConfiguration (Config b))) (overlaid cf pt pw)] (w_fs w)
| snapshot_issued cf pt pw cl err fs1 :
    load_of w (backup_paths.conf p) = Ok cf →
    read_of w (backup_paths.port p) = Ok pt →
    read_of w (backup_paths.password p) = Ok pw →
    client_Connect (Host (RedisConfiguration (Config b))) (overlaid cf pt pw) = Ok cl →
    client_CreateSnapshot cl (BGSaveTimeoutSeconds (backupConfiguration b)) (w_fs w)
      = (err, fs1) →
    snapshot_stage b p w err
      [EvReadFile (backup_paths.conf p); EvReadFile (backup_paths.port p);
       EvReadFile (backup_paths.password p);
       EvConnect (Host (RedisConfiguration (Config b))) (overlaid cf pt pw);
       EvCreateSnapshot cl (BGSaveTimeoutSeconds (backupConfiguration b))] fs1.

(** The ways through the rest of [Create], from the world [w1] the
    snapshot stage leaves. *)
Inductive artifact_stage (b : Backup) (p : fpath) (instanceID : string)
    (bucket : s3bucket.Bucket) (w1 : World) : option Error → list Event → Prop :=
| artifact_skipped e :
    stat_of w1 (backup_paths.rdb p) = Err e →
    os_IsExist (Some e) = false →
    artifact_stage b p instanceID bucket w1 None
      [EvStat (backup_paths.rdb p); EvLog (skipLine p)]
| artifact_unreadable e :
    (is_Ok (stat_of w1 (backup_paths.rdb p)) = true
     ∨ ∃ e', stat_of w1 (backup_paths.rdb p) = Err e' ∧ os_IsExist (Some e') = true) →
    read_of w1 (backup_paths.rdb p) = Err e →
    artifact_stage b p instanceID bucket w1 (Some e)
      [EvStat (backup_paths.rdb p); EvReadFile (backup_paths.rdb p)]
| artifact_uploaded content :
    (is_Ok (stat_of w1 (backup_paths.rdb p)) = true
     ∨ ∃ e', stat_of w1 (backup_paths.rdb p) = Err e' ∧ os_IsExist (Some e') = true) →
    read_of w1 (backup_paths.rdb p) = Ok content →
    artifact_stage b p instanceID bucket w1
      (s3_Upload bucket content (remotePathOf b instanceID))
      [EvStat (backup_paths.rdb p); EvReadFile (backup_paths.rdb p);
       EvLog (backingUpLine b p instanceID);
       EvUpload bucket content (remotePathOf b instanceID)].

Definition getOrCreateCall (b : Backup) : Event :=
  EvGetOrCreate
    (s3bucket.NewClient (EndpointUrl (backupConfiguration b)) (S3Region (backupConfiguration b))
       (AccessKeyId (backupConfiguration b)) (SecretAccessKey (backupConfiguration b)))
    (BucketName (backupConfiguration b)).

(** The ways through [Create]. *)
Inductive create_outcome (b : Backup) (p : fpath) (instanceID : string) (w : World)
  : option Error → list Event → gmap fpath Node → Prop :=
| bucket_failed e :
    (getOrCreateBucket b w).1 = Err e →
    create_outcome b p instanceID w (Some e) [getOrCreateCall b] (w_fs w)
| snapshot_failed bucket e evs fs1 :
    (getOrCreateBucket b w).1 = Ok bucket →
    snapshot_stage b p w (Some e) evs fs1 →
    create_outcome b p instanceID w (Some e) (getOrCreateCall b :: evs) fs1
| artifact_reached bucket evs fs1 err evs' :
    (getOrCreateBucket b w).1 = Ok bucket →
    snapshot_stage b p w None evs fs1 →
    artifact_stage b p instanceID bucket (set_fs fs1 w) err evs' →
    create_outcome b p instanceID w err (getOrCreateCall b :: evs ++ evs') fs1.
End BackupVocabulary.

Section RepositoryVocabulary.
Context `{Collaborators}.
Import redis.

(** What [FindByID] answers for [instanceID] in [w]. *)
Definition found (repo : LocalRepository) (w : World) (instanceID : string)
  : result Instance :=
  (FindByID repo instanceID w).1.

Definition reconstructed (repo : LocalRepository) (w : World) (ids : list string)
  : list Instance :=
  omap (λ id, match found repo w id with Ok i => Some i | Err _ => None end) ids.

Definition failures (repo : LocalRepository) (w : World) (ids : list string)
  : list Error :=
  omap (λ id, match found repo w id with Ok _ => None | Err e => Some e end) ids.

(** The calls of the loop of the scan, directory by directory. *)
Definition scan_events (repo : LocalRepository) (verbose : bool) (w : World)
    (ids : list string) : list Event :=
  flat_map
    (λ id, EvReadFile (InstanceConfigPath repo id)
           :: match found repo w id with
              | Ok _ => if verbose then [EvLog (foundLine id)] else []
              | Err e => [EvLog (errorLine id e)]
              end)
    ids.

(** The calls that open a scan. *)
Definition scan_head (verbose : bool) (dir : fpath) : list Event :=
  (if verbose then [EvLog (startLine dir)] else []) ++ [EvReadDir dir].

(** The four kinds of log lines of a scan. *)
Inductive scan_line : lager.Line → Prop :=
| scan_start dir : scan_line (startLine dir)
| scan_found id : scan_line (foundLine id)
| scan_error id e : scan_line (errorLine id e)
| scan_count n : scan_line (countLine n).

(** Those that only the verbose scan writes. *)
Inductive verbose_line : lager.Line → Prop :=
| verbose_start dir : verbose_line (startLine dir)
| verbose_found id : verbose_line (foundLine id)
| verbose_count n : verbose_line (countLine n).

(** The three locations of an instance. *)
Definition locations (repo : LocalRepository) (instanceID : string) : list fpath :=
  [InstanceBaseDir repo instanceID; InstancePidFilePath repo instanceID;
   InstanceLogDir repo instanceID].
End RepositoryVocabulary.

(** The machines of the examples of the backup pipeline. *)
Module demo_backup.
Import demo.

Definition theBackup : backup.Backup := backup.mkBackup (brokerconfig.mkConfig redisConf).

Definition instancePath : fpath := redis.InstanceBaseDir repo "i1".

Definition with_files (files : list (fpath * bytes)) (w : World) : World :=
  mkWorld (foldr (λ f fs, <[f.1 := File f.2]> fs) (w_fs w) files) (w_denied w) (w_trace w).

(** One provisioned instance and its two sidecar files. *)
Definition world : World :=
  with_files
    [ (backup_paths.port instancePath, go_bytes "8080");
      (backup_paths.password instancePath, go_bytes "secret") ]
    (after (@redis.newTestInstance healthy "i1" repo) world0).

Definition dataset : bytes := go_bytes "REDIS0006 dataset".

(** A data store that has a dataset to persist. *)
Definition persisting : Collaborators :=
  collaborators None None None None (Some (backup_paths.rdb instancePath, dataset)).

(** The artifact is there, below a directory that cannot be searched. *)
Definition world_unreachable : World :=
  mkWorld (<[backup_paths.rdb instancePath := File dataset]> (w_fs world))
    {[ backup_paths.rdb instancePath := EACCES ]} [].

Definition bucketDown : Collaborators :=
  collaborators (Some (OtherError "bucket: access denied")) None None None None.

Definition snapshotTimeout : Collaborators :=
  collaborators None None (Some (OtherError "bgsave: timed out")) None None.

Definition uploadFails : Collaborators :=
  collaborators None None None (Some (OtherError "upload: connection reset"))
    (Some (backup_paths.rdb instancePath, dataset)).

(** The sidecar file of the port is missing. *)
Definition world_no_port : World :=
  mkWorld (delete (backup_paths.port instancePath) (w_fs world)) ∅ [].

(** A data file seeded in the working directory of the instance. *)
Definition aof : fpath := path_Join (redis.InstanceDataDir repo "i1") ["appendonly.aof"].

Definition world_seeded : World :=
  with_files [ (aof, go_bytes "DATA FILE");
               (redis.InstanceConfigPath repo "i1", go_bytes "my custom config") ]
    (after (@redis.newTestInstance healthy "i1" repo) world0).

Definition instance1 : redis.Instance := redis.mkInstance "i1" "10.0.0.7" 6379 "s3cret".
End demo_backup.

Module demo_values.
Import demo demo_backup.

(** The configuration of the instance as the backup loads it, and the
    client the backup connects. *)
Definition conf_i1 : redisconf.Conf :=
  Eval vm_compute in
    match @load_of healthy world (backup_paths.conf instancePath) with
    | Ok c => c
    | Err _ => []
    end.

Definition client_i1 : client.Client :=
  Eval vm_compute in
    client.mkClient "127.0.0.1" (overlaid conf_i1 (go_bytes "8080") (go_bytes "secret")).

Definition bucket_i1 : s3bucket.Bucket :=
  Eval vm_compute in
    match (@backup.getOrCreateBucket healthy theBackup world).1 with
    | Ok b => b
    | Err _ => s3bucket.mkBucket "" (s3bucket.NewClient "" "" "" "")
    end.

(** The tree once the data store has persisted its dataset. *)
Definition tree_persisted : gmap fpath Node :=
  <[backup_paths.rdb instancePath := File dataset]> (w_fs world).

Definition template0 : redisconf.Conf := [redisconf.mkParam "daemonize" "yes"].

(** The entries of the data directory of [world3_broken]. *)
Definition entries3 : list FileInfo :=
  Eval vm_compute in
    children (w_fs world3_broken) (brokerconfig.InstanceDataDirectory redisConf).
End demo_values.


(** ** Vocabulary of the further properties *)

Definition is_getOrCreate (ev : Event) : bool :=
  match ev with EvGetOrCreate _ _ => true | _ => false end.

(** The calls that change the directory tree. *)
Definition is_mutation (ev : Event) : bool :=
  match ev with
  | EvWriteFile _ _ | EvMkdirAll _ | EvRemoveAll _ => true
  | _ => false
  end.

(** The last character of a text. *)
Fixpoint last_char (s : string) : option Ascii.ascii :=
  match s with
  | EmptyString => None
  | String c EmptyString => Some c
  | String _ s' => last_char s'
  end.

(** Every directory on the way to [p] is there. *)
Definition all_made (fs : gmap fpath Node) (p : fpath) : Prop :=
  ∀ a c b, p = a ++ c :: b → fs !! (a ++ [c]) = Some Dir.

(** Further machines for the examples. *)
Module demo_more.
Import demo demo_backup.

Definition connectRefused : Collaborators :=
  collaborators None (Some (OtherError "dial tcp: connection refused")) None None None.

(** A directory sits where the artifact is expected. *)
Definition world_rdb_dir : World :=
  mkWorld (<[backup_paths.rdb instancePath := Dir]> (w_fs world)) ∅ [].

(** The data directory of the repository is gone. *)
Definition world_no_data : World :=
  remove_file (brokerconfig.InstanceDataDirectory redisConf) world0.

End demo_more.

(** * Theorems *)

(** ** Running the primitives *)

Local Arguments os_IsExist : simpl never.

Lemma record_record evs1 evs2 w :
  record evs2 (record evs1 w) = record (evs1 ++ evs2) w.
Proof. unfold record; simpl. by rewrite app_assoc. Qed.

Lemma new_events_record {A} (m : M A) w a fs evs :
  m w = (a, set_fs fs (record evs w)) → new_events m w = evs.
Proof.
  intros Hm. unfold new_events. rewrite Hm. simpl.
  by rewrite drop_app_length.
Qed.

(** Two descriptions of the world a run leaves agree. *)
Ltac same_world :=
  unfold bucket_Upload, Logger_Info, Logger_Error, bind, ret, emit, ask, with_fs,
    set_fs, record;
  simpl; rewrite <- ?app_assoc; simpl; reflexivity.

(** Reads do not depend on the trace: read them in [w]. *)
Ltac seen_from w :=
  repeat match goal with
    | |- context [read_of ?w' ?q] =>
        lazymatch w' with w => fail | _ => change (read_of w' q) with (read_of w q) end
    | |- context [stat_of ?w' ?q] =>
        lazymatch w' with w => fail | _ => change (stat_of w' q) with (stat_of w q) end
    | |- context [load_of ?w' ?q] =>
        lazymatch w' with w => fail | _ => change (load_of w' q) with (load_of w q) end
    | |- context [readdir_of ?w' ?q] =>
        lazymatch w' with w => fail | _ => change (readdir_of w' q) with (readdir_of w q) end
    end.

Lemma emit_run ev w : emit ev w = (tt, record [ev] w).
Proof. reflexivity. Qed.

Lemma os_Stat_run p w : os_Stat p w = (stat_of w p, record [EvStat p] w).
Proof. reflexivity. Qed.

Lemma ReadFile_run p w : ioutil_ReadFile p w = (read_of w p, record [EvReadFile p] w).
Proof. reflexivity. Qed.

Lemma ReadDir_run p w : ioutil_ReadDir p w = (readdir_of w p, record [EvReadDir p] w).
Proof. reflexivity. Qed.

Lemma Load_run `{Collaborators} p w :
  redisconf_Load p w = (load_of w p, record [EvReadFile p] w).
Proof. reflexivity. Qed.

Section BackupFacts.
Context `{Collaborators}.
Import backup brokerconfig.

Lemma createSnapshot_stage b p w :
  ∃ err evs fs1,
    snapshot_stage b p w err evs fs1
    ∧ createSnapshot b p w = (err, set_fs fs1 (record evs w)).
Proof.
  unfold createSnapshot, buildRedisClient, bind.
  rewrite Load_run.
  destruct (load_of w (path_Join p ["redis.conf"])) as [cf|e] eqn:Hcf.
  2:{ eexists _, _, _. split; [by apply conf_unreadable|]. same_world. }
  rewrite ReadFile_run. change (read_of (record _ w)) with (read_of w).
  destruct (read_of w (path_Join p ["redis-server.port"])) as [pt|e] eqn:Hpt.
  2:{ eexists _, _, _. split; [by eapply port_unreadable|]. same_world. }
  rewrite ReadFile_run. change (read_of (record _ (record _ w))) with (read_of w).
  destruct (read_of w (path_Join p ["redis-server.password"])) as [pw|e] eqn:Hpw.
  2:{ eexists _, _, _. split; [by eapply password_unreadable|]. same_world. }
  unfold client_Connect_, client_CreateSnapshot_, bind, ret, ask, with_fs. simpl.
  destruct (client_Connect _ _) as [cl|e] eqn:Hcl.
  2:{ eexists _, _, _. split; [by eapply connect_refused|].
      same_world. }
  match goal with
  | |- context [client_CreateSnapshot ?c ?t ?fs] =>
      destruct (client_CreateSnapshot c t fs) as [err fs1] eqn:Hsnap
  end.
  eexists _, _, _. split; [by eapply snapshot_issued|].
  same_world.
Qed.

(** The rest of [Create], once the snapshot stage has succeeded. *)
Lemma Create_artifact_stage b p instanceID bucket w1 :
  ∃ err evs,
    artifact_stage b p instanceID bucket w1 err evs
    ∧ (exists_ <-- fileExists (path_Join p ["db"; "dump.rdb"]) ;;
       if negb exists_ then
         Logger_Info "dump.rdb not found, skipping instance backup"
           [("Local file", path_string (path_Join p ["db"; "dump.rdb"]))] ;;;
         ret None
       else uploadToS3 b instanceID (path_Join p ["db"; "dump.rdb"]) bucket) w1
      = (err, record evs w1).
Proof.
  unfold fileExists, uploadToS3, bind. rewrite os_Stat_run.
  change (stat_of (record _ w1)) with (stat_of w1).
  destruct (stat_of w1 (path_Join p ["db"; "dump.rdb"])) as [fi|e] eqn:Hst; simpl.
  - seen_from w1.
    destruct (read_of w1 (path_Join p ["db"; "dump.rdb"])) as [content|e] eqn:Hrd.
    + eexists _, _. split.
      * apply artifact_uploaded; [left; unfold backup_paths.rdb; by rewrite Hst | exact Hrd].
      * same_world.
    + eexists _, _. split.
      * apply artifact_unreadable; [left; unfold backup_paths.rdb; by rewrite Hst | exact Hrd].
      * same_world.
  - destruct (os_IsExist (Some e)) eqn:Hex; simpl.
    + seen_from w1.
      destruct (read_of w1 (path_Join p ["db"; "dump.rdb"])) as [content|e'] eqn:Hrd.
      * eexists _, _. split.
        -- apply artifact_uploaded; [right; by exists e | exact Hrd].
        -- same_world.
      * eexists _, _. split.
        -- apply artifact_unreadable; [right; by exists e | exact Hrd].
        -- same_world.
    + eexists _, _. split.
      * by eapply artifact_skipped.
      * same_world.
Qed.
End BackupFacts.

Section BackupOutcome.
Context `{Collaborators}.
Import backup brokerconfig.

Lemma Create_outcome b p instanceID w :
  ∃ err evs fs1,
    create_outcome b p instanceID w err evs fs1
    ∧ Create b p instanceID w = (err, set_fs fs1 (record evs w)).
Proof.
  unfold Create. unfold bind at 1.
  assert (Hb : getOrCreateBucket b w
               = ((getOrCreateBucket b w).1, record [getOrCreateCall b] w))
    by reflexivity.
  rewrite Hb. destruct (getOrCreateBucket b w).1 as [bucket|e] eqn:Hbucket.
  2:{ eexists _, _, _. split; [by apply bucket_failed|]. same_world. }
  unfold bind at 1.
  destruct (createSnapshot_stage b p (record [getOrCreateCall b] w))
    as (err & evs & fs1 & Hstage & Hrun).
  rewrite Hrun.
  assert (Hstage' : snapshot_stage b p w err evs fs1).
  { destruct Hstage.
    - exact (conf_unreadable b p w _ ltac:(eassumption)).
    - exact (port_unreadable b p w _ _ ltac:(eassumption) ltac:(eassumption)).
    - exact (password_unreadable b p w _ _ _ ltac:(eassumption) ltac:(eassumption)
               ltac:(eassumption)).
    - exact (connect_refused b p w _ _ _ _ ltac:(eassumption) ltac:(eassumption)
               ltac:(eassumption) ltac:(eassumption)).
    - exact (snapshot_issued b p w _ _ _ _ _ _ ltac:(eassumption) ltac:(eassumption)
               ltac:(eassumption) ltac:(eassumption) ltac:(eassumption)). }
  destruct err as [e|].
  { eexists _, _, _. split; [by eapply snapshot_failed|]. same_world. }
  destruct (Create_artifact_stage b p instanceID bucket
              (set_fs fs1 (record evs (record [getOrCreateCall b] w))))
    as (err' & evs' & Hart & Hrun').
  assert (Hart' : artifact_stage b p instanceID bucket (set_fs fs1 w) err' evs').
  { destruct Hart.
    - exact (artifact_skipped b p instanceID bucket (set_fs fs1 w) _
               ltac:(eassumption) ltac:(eassumption)).
    - exact (artifact_unreadable b p instanceID bucket (set_fs fs1 w) _
               ltac:(eassumption) ltac:(eassumption)).
    - exact (artifact_uploaded b p instanceID bucket (set_fs fs1 w) _
               ltac:(eassumption) ltac:(eassumption)). }
  eexists _, _, _. split; [by eapply artifact_reached|].
  etrans; [|etrans; [exact Hrun'|]]; [reflexivity || (f_equal; same_world)|].
  f_equal. same_world.
Qed.
End BackupOutcome.

(** ** The order of the steps of [Create] *)

Lemma path_Join_inj p a b : path_Join p a = path_Join p b → a = b.
Proof. apply app_inv_head. Qed.

(** Decide a fact about a list of calls that is written out. *)
Ltac paths_differ :=
  let Heq := fresh in
  intros Heq;
  repeat match type of Heq with
    | EvStat _ = EvStat _ => injection Heq as Heq
    | EvReadFile _ = EvReadFile _ => injection Heq as Heq
    end;
  first [ discriminate Heq
        | apply path_Join_inj in Heq; discriminate Heq ].

Ltac calls_checked :=
  unfold none_of, backup_paths.conf, backup_paths.port, backup_paths.password,
    backup_paths.rdb;
  repeat first
    [ apply Forall_nil_2
    | apply Forall_cons_2
    | apply NoDup_nil_2
    | apply NoDup_cons_2
    | apply not_elem_of_nil
    | apply not_elem_of_cons; split
    | reflexivity
    | apply bool_decide_eq_false_2
    | paths_differ ].

(** Two answers to the same question are the same answer. *)
Ltac agree :=
  repeat match goal with
    | H1 : ?x = _, H2 : ?x = _ |- _ => rewrite H1 in H2; simplify_eq
    end.

Section BackupOrder.
Context `{Collaborators}.
Import backup brokerconfig.

Lemma snapshot_stage_calls b p w err evs fs1 :
  snapshot_stage b p w err evs fs1 →
  none_of is_upload evs ∧ none_of (is_access (backup_paths.rdb p)) evs.
Proof. destruct 1; split; calls_checked. Qed.

Lemma snapshot_stage_config_fails b p w e err evs fs1 :
  config_or_sidecar_fails p w e →
  snapshot_stage b p w err evs fs1 →
  err = Some e ∧ none_of is_snapshot evs.
Proof.
  intros Hfail Hstage.
  destruct Hstage as [e' Hcf|cf e' Hcf Hpt|cf pt e' Hcf Hpt Hpw
                     |cf pt pw e' Hcf Hpt Hpw Hcl|cf pt pw cl err fs1 Hcf Hpt Hpw Hcl Hsn];
    destruct Hfail as [Hf|[[Hok Hf]|(Hok & Hok' & Hf)]];
    rewrite ?Hcf, ?Hpt, ?Hpw in *; simplify_eq/=; split; try done; calls_checked.
Qed.

Lemma snapshot_stage_answer b p w err0 fs0 err evs fs1 :
  snapshot_command_answers b p w err0 fs0 →
  snapshot_stage b p w err evs fs1 →
  err = err0 ∧ fs1 = fs0.
Proof.
  intros (cf0 & pt0 & pw0 & cl0 & Hcf0 & Hpt0 & Hpw0 & Hcl0 & Hsn0) Hstage.
  destruct Hstage as [e' Hcf|cf e' Hcf Hpt|cf pt e' Hcf Hpt Hpw
                     |cf pt pw e' Hcf Hpt Hpw Hcl|cf pt pw cl err fs1 Hcf Hpt Hpw Hcl Hsn];
    agree; done.
Qed.

Lemma create_outcome_NoDup b p instanceID w err evs fs1 :
  create_outcome b p instanceID w err evs fs1 → NoDup evs.
Proof.
  destruct 1 as [e Hb|bucket e evs fs1 Hb Hstage|bucket evs fs1 err evs' Hb Hstage Hart].
  - calls_checked.
  - inversion Hstage; subst; unfold getOrCreateCall; calls_checked.
  - inversion Hstage; subst; destruct Hart; unfold getOrCreateCall; simpl; calls_checked.
Qed.
End BackupOrder.

Section BackupClaims.
Context `{Collaborators}.
Import backup brokerconfig.

Lemma none_of_filter k evs : none_of k evs → List.filter k evs = [].
Proof.
  induction 1 as [|ev evs Hev _ IH]; simpl; [done|]. by rewrite Hev.
Qed.

Lemma read_Ok_stat_Ok w p content : read_of w p = Ok content → is_Ok (stat_of w p) = true.
Proof.
  unfold read_of, stat_of. destruct (w_denied w !! p); [done|].
  by destruct (node_at (w_fs w) p) as [[]|].
Qed.

Lemma new_events_Create b p instanceID w err evs fs1 :
  Create b p instanceID w = (err, set_fs fs1 (record evs w)) →
  (Create b p instanceID w).1 = err ∧ new_events (Create b p instanceID) w = evs.
Proof. intros Hrun. split; [by rewrite Hrun | by eapply new_events_record]. Qed.

(** When the existence check answers no, [Create] logs the skip notice
    and returns nil; the artifact is neither read nor uploaded. *)
Lemma Create_skip b p instanceID w fs1 e :
  is_Ok (getOrCreateBucket b w).1 = true →
  snapshot_command_answers b p w None fs1 →
  stat_of (set_fs fs1 w) (backup_paths.rdb p) = Err e →
  os_IsExist (Some e) = false →
  (Create b p instanceID w).1 = None
  ∧ EvLog (skipLine p) ∈ new_events (Create b p instanceID) w
  ∧ none_of is_upload (new_events (Create b p instanceID) w)
  ∧ none_of (λ ev, match ev with EvReadFile q => bool_decide (q = backup_paths.rdb p)
                             | _ => false end)
      (new_events (Create b p instanceID) w).
Proof.
  intros Hbucket Hsnap Hstat Hexist.
  destruct (Create_outcome b p instanceID w) as (err & evs & fs & Hout & Hrun).
  apply new_events_Create in Hrun as [-> ->].
  destruct Hout as [e0 Hb|bucket e0 evs fs Hb Hstage|bucket evs fs err evs' Hb Hstage Hart].
  - by rewrite Hb in Hbucket.
  - by destruct (snapshot_stage_answer _ _ _ _ _ _ _ _ Hsnap Hstage).
  - destruct (snapshot_stage_answer _ _ _ _ _ _ _ _ Hsnap Hstage) as [_ ->].
    destruct Hart as [e1 Hst Hex|e1 [Hst|(e' & Hst & Hex)] Hrd|content [Hst|(e' & Hst & Hex)] Hrd];
      rewrite Hstat in Hst; simplify_eq/=; try congruence.
    split; [done|]. split.
    { apply elem_of_cons; right. apply elem_of_app; right. set_solver. }
    inversion Hstage; subst; split; unfold getOrCreateCall; simpl; calls_checked.
Qed.

(** C4: the error-producing steps of [Create] come in a fixed order.
    A failure of the bucket get-or-create is returned before any
    connection to the data store is attempted; a failure to load the
    configuration or to read a sidecar file is returned before the
    snapshot command is issued; a failure of the snapshot command is
    returned before the artifact is looked at or uploaded; once the
    snapshot command has succeeded, an error can only be that of reading
    the artifact or that of the upload; and no call is made twice. *)
Theorem Create_failure_order b p instanceID w :
  let err := (Create b p instanceID w).1 in
  let evs := new_events (Create b p instanceID) w in
  (∀ e, (getOrCreateBucket b w).1 = Err e →
        err = Some e ∧ none_of is_connect evs)
  ∧ (∀ e, is_Ok (getOrCreateBucket b w).1 = true →
          config_or_sidecar_fails p w e →
          err = Some e ∧ none_of is_snapshot evs)
  ∧ (∀ e fs1, is_Ok (getOrCreateBucket b w).1 = true →
              snapshot_command_answers b p w (Some e) fs1 →
              err = Some e
              ∧ none_of (is_access (backup_paths.rdb p)) evs
              ∧ none_of is_upload evs)
  ∧ (∀ e fs1 bucket, (getOrCreateBucket b w).1 = Ok bucket →
              snapshot_command_answers b p w None fs1 →
              err = Some e →
              read_of (set_fs fs1 w) (backup_paths.rdb p) = Err e
              ∨ ∃ content,
                  read_of (set_fs fs1 w) (backup_paths.rdb p) = Ok content
                  ∧ s3_Upload bucket content (remotePathOf b instanceID) = Some e)
  ∧ NoDup evs.
Proof.
  intros err evs. subst err evs.
  destruct (Create_outcome b p instanceID w) as (err & evs & fs & Hout & Hrun).
  apply new_events_Create in Hrun as [-> ->].
  split; [|split; [|split; [|split]]].
  - intros e Hb.
    destruct Hout as [e0 Hb'|bucket e0 evs fs Hb' _|bucket evs fs err evs' Hb' _ _];
      rewrite Hb in Hb'; simplify_eq.
    split; [done|]. unfold getOrCreateCall. calls_checked.
  - intros e Hb Hfail.
    destruct Hout as [e0 Hb'|bucket e0 evs fs Hb' Hstage|bucket evs fs err evs' Hb' Hstage _];
      [by rewrite Hb' in Hb| |];
      destruct (snapshot_stage_config_fails _ _ _ _ _ _ _ Hfail Hstage) as [Herr Hno];
      simplify_eq.
    split; [done|]. by apply Forall_cons_2.
  - intros e fs1 Hb Hsnap.
    destruct Hout as [e0 Hb'|bucket e0 evs fs Hb' Hstage|bucket evs fs err evs' Hb' Hstage _];
      [by rewrite Hb' in Hb| |];
      destruct (snapshot_stage_answer _ _ _ _ _ _ _ _ Hsnap Hstage) as [Herr Hfs];
      simplify_eq.
    destruct (snapshot_stage_calls _ _ _ _ _ _ Hstage) as [Hup Hacc].
    split; [done|]. split; by apply Forall_cons_2.
  - intros e fs1 bucket Hb Hsnap Hsome.
    destruct Hout as [e0 Hb'|bucket' e0 evs fs Hb' Hstage|bucket' evs fs err evs' Hb' Hstage Hart];
      rewrite Hb in Hb'; simplify_eq;
      destruct (snapshot_stage_answer _ _ _ _ _ _ _ _ Hsnap Hstage) as [Herr Hfs];
      simplify_eq.
    inversion Hart; subst; [by left | right; eauto].
  - by eapply create_outcome_NoDup.
Qed.

(** C5: when the snapshot command has succeeded and no artifact is at
    [<instancePath>/db/dump.rdb], [Create] logs the skip notice, returns
    nil and never calls the upload. *)
Theorem Create_skips_missing_artifact b p instanceID w fs1 :
  is_Ok (getOrCreateBucket b w).1 = true →
  snapshot_command_answers b p w None fs1 →
  absent (set_fs fs1 w) (backup_paths.rdb p) →
  (Create b p instanceID w).1 = None
  ∧ EvLog (skipLine p) ∈ new_events (Create b p instanceID) w
  ∧ none_of is_upload (new_events (Create b p instanceID) w).
Proof.
  intros Hbucket Hsnap Habsent.
  destruct (Create_skip b p instanceID w fs1 _ Hbucket Hsnap Habsent eq_refl)
    as (? & ? & ? & _).
  done.
Qed.

(** C6: when the bucket is there, the configuration and both sidecar
    files are read, the snapshot command succeeds and the artifact is
    present and readable, [Create] calls the upload once, with the bytes
    of the artifact and the remote path [<prefix>/<instanceID>], and
    returns what the upload returns. *)
Theorem Create_uploads_artifact b p instanceID w bucket fs1 content :
  (getOrCreateBucket b w).1 = Ok bucket →
  snapshot_command_answers b p w None fs1 →
  read_of (set_fs fs1 w) (backup_paths.rdb p) = Ok content →
  (Create b p instanceID w).1
    = s3_Upload bucket content (Path (backupConfiguration b) +:+ "/" +:+ instanceID)
  ∧ List.filter is_upload (new_events (Create b p instanceID) w)
    = [EvUpload bucket content (Path (backupConfiguration b) +:+ "/" +:+ instanceID)].
Proof.
  intros Hbucket Hsnap Hread.
  destruct (Create_outcome b p instanceID w) as (err & evs & fs & Hout & Hrun).
  apply new_events_Create in Hrun as [-> ->].
  destruct Hout as [e0 Hb|bucket' e0 evs fs Hb Hstage|bucket' evs fs err evs' Hb Hstage Hart];
    agree.
  - by destruct (snapshot_stage_answer _ _ _ _ _ _ _ _ Hsnap Hstage).
  - destruct (snapshot_stage_answer _ _ _ _ _ _ _ _ Hsnap Hstage) as [_ ->].
    pose proof (read_Ok_stat_Ok _ _ _ Hread) as Hstat.
    destruct Hart as [e1 Hst Hex|e1 _ Hrd|content' _ Hrd].
    + by rewrite Hst in Hstat.
    + by rewrite Hread in Hrd.
    + rewrite Hread in Hrd. simplify_eq. split; [done|].
      simpl. rewrite List.filter_app.
      rewrite (none_of_filter _ _ (proj1 (snapshot_stage_calls _ _ _ _ _ _ Hstage))).
      reflexivity.
Qed.

(** C10: whatever the failure of the stat on the artifact path, short of
    an already-exists error, [Create] takes the artifact for absent: it
    logs the skip notice and returns nil, and it neither reads nor
    uploads the artifact. A missing artifact and one that cannot be
    reached are not told apart. *)
Theorem Create_absorbs_stat_failure b p instanceID w fs1 e :
  is_Ok (getOrCreateBucket b w).1 = true →
  snapshot_command_answers b p w None fs1 →
  stat_of (set_fs fs1 w) (backup_paths.rdb p) = Err e →
  os_IsExist (Some e) = false →
  (Create b p instanceID w).1 = None
  ∧ EvLog (skipLine p) ∈ new_events (Create b p instanceID) w
  ∧ none_of is_upload (new_events (Create b p instanceID) w)
  ∧ none_of (λ ev, match ev with EvReadFile q => bool_decide (q = backup_paths.rdb p)
                             | _ => false end)
      (new_events (Create b p instanceID) w).
Proof. apply Create_skip. Qed.
End BackupClaims.

(** ** The directory tree *)

Lemma node_at_snoc fs p c : node_at fs (p ++ [c]) = fs !! (p ++ [c]).
Proof. by destruct p. Qed.

Lemma is_prefix_refl p : is_prefix p p = true.
Proof. induction p as [|a p IH]; simpl; [done|]. by rewrite String.eqb_refl. Qed.

Lemma remove_all_below p q fs : is_prefix p q = true → remove_all p fs !! q = None.
Proof.
  intros Hpre. unfold remove_all. apply map_lookup_filter_None. right.
  intros n _. simpl. by rewrite Hpre.
Qed.

Lemma remove_all_None p q fs : fs !! q = None → remove_all p fs !! q = None.
Proof. intros Hq. unfold remove_all. apply map_lookup_filter_None. by left. Qed.

(** [os.MkdirAll] leaves what is there as it is, and creates directories only. *)
Lemma mkdir_all_keeps rest : ∀ pre fs q n,
  fs !! q = Some n → (mkdir_all pre rest fs).2 !! q = Some n.
Proof.
  induction rest as [|c rest IH]; intros pre fs q n Hq; simpl; [done|].
  destruct (fs !! (pre ++ [c])) as [[content|]|] eqn:Hd; simpl; [done|by apply IH|].
  apply IH. rewrite lookup_insert_ne; [done|]. intros Heq. rewrite Heq in Hd. by rewrite Hd in Hq.
Qed.

Lemma mkdir_all_files rest : ∀ pre fs q content,
  (mkdir_all pre rest fs).2 !! q = Some (File content) → fs !! q = Some (File content).
Proof.
  induction rest as [|c rest IH]; intros pre fs q content; simpl; [done|].
  destruct (fs !! (pre ++ [c])) as [[content'|]|] eqn:Hd; simpl; [done|by apply IH|].
  intros Hq. apply IH in Hq.
  destruct (decide (pre ++ [c] = q)) as [<-|Hne].
  - by rewrite lookup_insert_eq in Hq.
  - by rewrite lookup_insert_ne in Hq.
Qed.

Lemma MkdirAll_run p w :
  ∃ err fs1, os_MkdirAll p w = (err, set_fs fs1 (record [EvMkdirAll p] w))
    ∧ (∀ q n, w_fs w !! q = Some n → fs1 !! q = Some n)
    ∧ (∀ q content, fs1 !! q = Some (File content) → w_fs w !! q = Some (File content)).
Proof.
  unfold os_MkdirAll, bind, ask, ret, with_fs; simpl.
  destruct (w_denied w !! p) as [e|]; simpl.
  { by exists (Some (PathError "mkdir" p e)), (w_fs w). }
  pose proof (mkdir_all_keeps p [] (w_fs w)) as Hkeep.
  pose proof (mkdir_all_files p [] (w_fs w)) as Hfiles.
  destruct (mkdir_all [] p (w_fs w)) as [err fs1]; simpl in *.
  by exists err, fs1.
Qed.

Lemma WriteFile_run p content w :
  (ioutil_WriteFile p content w
   = (None, set_fs (<[p := File content]> (w_fs w)) (record [EvWriteFile p content] w))
   ∧ w_denied w !! p = None)
  ∨ (∃ e, ioutil_WriteFile p content w = (Some e, record [EvWriteFile p content] w)).
Proof.
  unfold ioutil_WriteFile, bind, ask, ret, with_fs; simpl.
  destruct (w_denied w !! p) as [e|]; simpl; [right; by eexists|].
  destruct (node_at (w_fs w) (parent p)) as [[?|]|]; simpl; [right; by eexists| |right; by eexists].
  destruct (node_at (w_fs w) p) as [[?|]|]; simpl; [left|right; by eexists|left]; done.
Qed.

Lemma absent_read w p : absent w p → read_of w p = Err (PathError "open" p ENOENT).
Proof.
  unfold absent, stat_of, read_of. destruct (w_denied w !! p) as [e|].
  - by intros [= ->].
  - by destruct (node_at (w_fs w) p) as [[]|].
Qed.

(** [os.RemoveAll] creates nothing; when it returns nil, the path and all
    below it are gone, or the kernel says nothing is there; and it returns
    nil when nothing is there. *)
Lemma RemoveAll_run p w :
  ∃ err fs1,
    os_RemoveAll p w = (err, set_fs fs1 (record [EvRemoveAll p] w))
    ∧ (∀ q, w_fs w !! q = None → fs1 !! q = None)
    ∧ (err = None →
       w_denied w !! p = Some ENOENT
       ∨ (w_denied w !! p = None ∧ ∀ q, is_prefix p q = true → fs1 !! q = None))
    ∧ (absent w p → err = None).
Proof.
  unfold os_RemoveAll, bind, ask, ret, with_fs, absent, stat_of; simpl.
  destruct (w_denied w !! p) as [e|] eqn:Hden; simpl.
  - destruct e; eexists _, (w_fs w);
      (split; [reflexivity|]; split; [done|]; split; [by (intros; (try done); left)|]);
      by intros [=].
  - exists None, (remove_all p (w_fs w)). split; [done|]. split.
    + intros q Hq. by apply remove_all_None.
    + split; [|done]. intros _. right. split; [done|].
      intros q Hpre. by apply remove_all_below.
Qed.

(** ** Configurations and decimal text *)

Lemma Get_Set_eq conf key value : redisconf.Get (redisconf.Set_ conf key value) key = value.
Proof.
  unfold redisconf.Get.
  induction conf as [|p conf IH]; simpl.
  - by rewrite String.eqb_refl.
  - destruct (String.eqb (redisconf.Key p) key) eqn:Hk; simpl.
    + by rewrite String.eqb_refl.
    + by rewrite Hk.
Qed.

Lemma Get_Set_ne conf key key' value :
  key ≠ key' → redisconf.Get (redisconf.Set_ conf key value) key' = redisconf.Get conf key'.
Proof.
  intros Hne. unfold redisconf.Get.
  induction conf as [|p conf IH]; simpl.
  - by destruct (String.eqb_spec key key').
  - destruct (String.eqb_spec (redisconf.Key p) key) as [->|Hk]; simpl.
    + by destruct (String.eqb_spec key key').
    + by destruct (String.eqb (redisconf.Key p) key').
Qed.

Lemma Atoi_Itoa n : strconv_Atoi (strconv_Itoa n) = Some n.
Proof.
  unfold strconv_Atoi, strconv_Itoa.
  rewrite NilZero.isi.
  - simpl. by rewrite DecimalZ.of_to.
  - destruct n; simpl; [done| |]; intros [= Hp];
      by apply (DecimalPos.Unsigned.to_uint_nonnil p).
  - destruct n; simpl; [done| |]; intros [= Hp];
      by apply (DecimalPos.Unsigned.to_uint_nonnil p).
Qed.

(** ** The write path of the repository *)

Section RepositoryWrite.
Context `{Collaborators}.
Import redis.

Lemma EnsureDirectoriesExist_run repo instance w :
  ∃ err fs1 evs,
    EnsureDirectoriesExist repo instance w = (err, set_fs fs1 (record evs w))
    ∧ (∀ q n, w_fs w !! q = Some n → fs1 !! q = Some n)
    ∧ (∀ q content, fs1 !! q = Some (File content) → w_fs w !! q = Some (File content)).
Proof.
  unfold EnsureDirectoriesExist, bind.
  destruct (MkdirAll_run (InstanceDataDir repo (ID instance)) w)
    as (err & fs1 & Hrun & Hkeep & Hfiles).
  rewrite Hrun. destruct err as [e|].
  { by exists (Some e), fs1, [EvMkdirAll (InstanceDataDir repo (ID instance))]. }
  destruct (MkdirAll_run (InstanceLogDir repo (ID instance))
              (set_fs fs1 (record [EvMkdirAll (InstanceDataDir repo (ID instance))] w)))
    as (err & fs2 & Hrun2 & Hkeep2 & Hfiles2).
  rewrite Hrun2. simpl in *.
  exists err, fs2, [EvMkdirAll (InstanceDataDir repo (ID instance));
                    EvMkdirAll (InstanceLogDir repo (ID instance))].
  split; [same_world|]. split.
  - intros q n Hq. by apply Hkeep2, Hkeep.
  - intros q content Hq. by apply Hfiles, Hfiles2.
Qed.

(** What [WriteConfigFile] does to the tree: when it succeeds, the
    configuration file holds the template with the additions of the
    instance, and nothing else has changed; when it fails, nothing has
    changed. *)
Lemma WriteConfigFile_run repo instance w :
  (∃ template evs,
      load_of w (brokerconfig.DefaultConfigPath (RedisConf repo)) = Ok template
      ∧ w_denied w !! InstanceConfigPath repo (ID instance) = None
      ∧ WriteConfigFile repo instance w
        = (None,
           set_fs (<[InstanceConfigPath repo (ID instance) :=
                       File (redisconf_print (instanceAdditions repo instance template))]>
                     (w_fs w))
             (record evs w)))
  ∨ (∃ e evs, WriteConfigFile repo instance w = (Some e, record evs w)).
Proof.
  unfold WriteConfigFile, bind. rewrite Load_run.
  destruct (load_of w (brokerconfig.DefaultConfigPath (RedisConf repo)))
    as [template|e] eqn:Hload.
  2:{ right. by eexists _, _. }
  match goal with
  | |- context [ioutil_WriteFile ?p ?c ?w'] =>
      destruct (WriteFile_run p c w') as [[Hrun Hden]|[e Hrun]]; rewrite Hrun
  end.
  - left. eexists template, _. split; [done|]. split; [done|]. same_world.
  - right. eexists e, _. same_world.
Qed.


(** When the write path succeeds, the configuration file is the template
    with the additions of the instance, whatever it was before. *)
Lemma writePath_config repo instance w :
  (writePath repo instance w).1 = None →
  ∃ template,
    load_of w (brokerconfig.DefaultConfigPath (RedisConf repo)) = Ok template
    ∧ read_of (writePath repo instance w).2 (InstanceConfigPath repo (ID instance))
      = Ok (redisconf_print (instanceAdditions repo instance template)).
Proof.
  unfold writePath, bind.
  destruct (EnsureDirectoriesExist_run repo instance w)
    as (err & fs1 & evs & Hrun & Hkeep & Hfiles).
  rewrite Hrun. destruct err as [e|]; simpl; [done|].
  destruct (WriteConfigFile_run repo instance (set_fs fs1 (record evs w)))
    as [(template & evs' & Hload & Hden & Hrun')|(e & evs' & Hrun')];
    rewrite Hrun'; simpl; [intros _|done].
  exists template. split.
  - revert Hload. unfold load_of, read_of; simpl.
    destruct (w_denied w !! _) as [?|]; [done|].
    unfold node_at.
    destruct (brokerconfig.DefaultConfigPath (RedisConf repo)) as [|c cs] eqn:Hp; [done|].
    destruct (fs1 !! (c :: cs)) as [[content|]|] eqn:Hnode; try done.
    by rewrite (Hfiles _ _ Hnode).
  - unfold read_of; simpl in *. rewrite Hden.
    unfold InstanceConfigPath, path_Join. rewrite node_at_snoc.
    by rewrite lookup_insert_eq.
Qed.


End RepositoryWrite.

(** ** Reading and deleting *)

Section RepositoryRead.
Context `{Collaborators}.
Import redis.

Lemma FindByID_run repo instanceID w :
  FindByID repo instanceID w
  = (found repo w instanceID, record [EvReadFile (InstanceConfigPath repo instanceID)] w).
Proof.
  unfold found, FindByID, bind. rewrite Load_run.
  destruct (load_of w (InstanceConfigPath repo instanceID)) as [conf|e]; [|done].
  by destruct (strconv_Atoi (redisconf.Get conf "port")).
Qed.

Lemma found_record repo evs w instanceID :
  found repo (record evs w) instanceID = found repo w instanceID.
Proof.
  unfold found, FindByID, bind. rewrite !Load_run. seen_from w.
  destruct (load_of w (InstanceConfigPath repo instanceID)) as [conf|e]; [|done].
  by destruct (strconv_Atoi (redisconf.Get conf "port")).
Qed.

(** C8: when the configuration file of an id is absent, [FindByID]
    returns an error for which [os.IsNotExist] holds, and
    [InstanceExists] returns false and no error. *)
Theorem FindByID_absent_configuration repo instanceID w :
  absent w (InstanceConfigPath repo instanceID) →
  (∃ e, (FindByID repo instanceID w).1 = Err e ∧ os_IsNotExist (Some e) = true)
  ∧ (InstanceExists repo instanceID w).1 = (false, None).
Proof.
  intros Habsent. apply absent_read in Habsent. split.
  - exists (PathError "open" (InstanceConfigPath repo instanceID) ENOENT).
    split; [|done].
    unfold FindByID, bind. rewrite Load_run. unfold load_of. by rewrite Habsent.
  - unfold InstanceExists, bind. rewrite ReadFile_run. by rewrite Habsent.
Qed.

Lemma gone_absent w p c :
  w_denied w !! (p ++ [c]) = Some ENOENT
  ∨ (w_denied w !! (p ++ [c]) = None ∧ w_fs w !! (p ++ [c]) = None) →
  absent w (p ++ [c]).
Proof.
  unfold absent, stat_of. intros [->|[-> Hnone]]; [done|].
  by rewrite node_at_snoc, Hnone.
Qed.

Lemma firstError_None e1 e2 e3 :
  firstError [e1; e2; e3] = None → e1 = None ∧ e2 = None ∧ e3 = None.
Proof. by destruct e1, e2, e3. Qed.

(** The three removals of [Delete], one after the other. *)
Lemma Delete_run repo instanceID w :
  ∃ e1 e2 e3 fs1 fs2 fs3 evs,
    Delete repo instanceID w = (firstError [e1; e2; e3], set_fs fs3 (record evs w))
    ∧ ((∀ q, w_fs w !! q = None → fs1 !! q = None)
       ∧ (∀ q, fs1 !! q = None → fs2 !! q = None)
       ∧ (∀ q, fs2 !! q = None → fs3 !! q = None))
    ∧ ((e1 = None →
        w_denied w !! InstanceBaseDir repo instanceID = Some ENOENT
        ∨ (w_denied w !! InstanceBaseDir repo instanceID = None
           ∧ ∀ q, is_prefix (InstanceBaseDir repo instanceID) q = true → fs1 !! q = None))
       ∧ (e2 = None →
          w_denied w !! InstancePidFilePath repo instanceID = Some ENOENT
          ∨ (w_denied w !! InstancePidFilePath repo instanceID = None
             ∧ ∀ q, is_prefix (InstancePidFilePath repo instanceID) q = true
                    → fs2 !! q = None))
       ∧ (e3 = None →
          w_denied w !! InstanceLogDir repo instanceID = Some ENOENT
          ∨ (w_denied w !! InstanceLogDir repo instanceID = None
             ∧ ∀ q, is_prefix (InstanceLogDir repo instanceID) q = true
                    → fs3 !! q = None)))
    ∧ ((absent w (InstanceBaseDir repo instanceID) → e1 = None)
       ∧ (absent (set_fs fs1 w) (InstancePidFilePath repo instanceID) → e2 = None)
       ∧ (absent (set_fs fs2 w) (InstanceLogDir repo instanceID) → e3 = None)).
Proof.
  unfold Delete, bind.
  destruct (RemoveAll_run (InstanceBaseDir repo instanceID) w)
    as (e1 & fs1 & Hrun1 & Hnew1 & Hgone1 & Habs1).
  rewrite Hrun1.
  destruct (RemoveAll_run (InstancePidFilePath repo instanceID)
              (set_fs fs1 (record [EvRemoveAll (InstanceBaseDir repo instanceID)] w)))
    as (e2 & fs2 & Hrun2 & Hnew2 & Hgone2 & Habs2).
  rewrite Hrun2.
  match goal with
  | |- context [os_RemoveAll ?p ?w'] =>
      destruct (RemoveAll_run p w') as (e3 & fs3 & Hrun3 & Hnew3 & Hgone3 & Habs3)
  end.
  rewrite Hrun3.
  exists e1, e2, e3, fs1, fs2, fs3.
  destruct (firstError [e1; e2; e3]) as [e|] eqn:Hfirst.
  - eexists. split; [same_world|]. done.
  - eexists. split; [same_world|]. done.
Qed.

(** C7: after [Delete] has succeeded for an id, none of its three
    locations (data directory, pid file, log directory) exists; and
    [Delete] succeeds on an id whose locations are already absent. *)
Theorem Delete_complete repo instanceID w :
  ((Delete repo instanceID w).1 = None →
   ∀ loc, loc ∈ locations repo instanceID → absent (Delete repo instanceID w).2 loc)
  ∧ ((∀ loc, loc ∈ locations repo instanceID → absent w loc) →
     (Delete repo instanceID w).1 = None).
Proof.
  destruct (Delete_run repo instanceID w)
    as (e1 & e2 & e3 & fs1 & fs2 & fs3 & evs & Hrun & (Hnew1 & Hnew2 & Hnew3)
        & (Hgone1 & Hgone2 & Hgone3) & (Habs1 & Habs2 & Habs3)).
  rewrite Hrun. simpl. split.
  - intros Hok loc Hloc. apply firstError_None in Hok as (-> & -> & ->).
    specialize (Hgone1 eq_refl). specialize (Hgone2 eq_refl). specialize (Hgone3 eq_refl).
    unfold locations in Hloc.
    apply elem_of_cons in Hloc as [->|Hloc]; [|apply elem_of_cons in Hloc as [->|Hloc]];
      [| |apply list_elem_of_singleton in Hloc as ->];
      apply gone_absent; simpl.
    + destruct Hgone1 as [?|[? Hg]]; [by left|right]. split; [done|].
      apply Hnew3, Hnew2, Hg, is_prefix_refl.
    + destruct Hgone2 as [?|[? Hg]]; [by left|right]. split; [done|].
      apply Hnew3, Hg, is_prefix_refl.
    + destruct Hgone3 as [?|[? Hg]]; [by left|right]. split; [done|].
      apply Hg, is_prefix_refl.
  - intros Hall.
    assert (e1 = None) as ->.
    { apply Habs1, Hall. unfold locations. set_solver. }
    assert (e2 = None) as ->.
    { apply Habs2.
      assert (Ha : absent w (InstancePidFilePath repo instanceID))
        by (apply Hall; unfold locations; set_solver).
      revert Ha. unfold absent, stat_of; simpl.
      destruct (w_denied w !! InstancePidFilePath repo instanceID); [tauto|].
      unfold InstancePidFilePath, path_Join. rewrite !node_at_snoc.
      destruct (w_fs w !! _) as [[]|] eqn:Hn; try done. by rewrite (Hnew1 _ Hn). }
    assert (e3 = None) as ->.
    { apply Habs3.
      assert (Ha : absent w (InstanceLogDir repo instanceID))
        by (apply Hall; unfold locations; set_solver).
      revert Ha. unfold absent, stat_of; simpl.
      destruct (w_denied w !! InstanceLogDir repo instanceID); [tauto|].
      unfold InstanceLogDir, path_Join. rewrite !node_at_snoc.
      destruct (w_fs w !! _) as [[]|] eqn:Hn; try done.
      by rewrite (Hnew2 _ (Hnew1 _ Hn)). }
    done.
Qed.
End RepositoryRead.

(** ** Enumerating *)

Section RepositoryScan.
Context `{Collaborators}.
Import redis.

Lemma omap_pointwise {A B} (f g : A → option B) (l : list A) :
  (∀ x, f x = g x) → omap f l = omap g l.
Proof. intros Hfg. induction l as [|x l IH]; csimpl; [done|]. by rewrite Hfg, IH. Qed.

Lemma flat_map_pointwise {A B} (f g : A → list B) (l : list A) :
  (∀ x, f x = g x) → flat_map f l = flat_map g l.
Proof. intros Hfg. induction l as [|x l IH]; simpl; [done|]. by rewrite Hfg, IH. Qed.

Lemma reconstructed_record repo evs w ids :
  reconstructed repo (record evs w) ids = reconstructed repo w ids.
Proof. apply omap_pointwise. intros id. by rewrite found_record. Qed.

Lemma failures_record repo evs w ids :
  failures repo (record evs w) ids = failures repo w ids.
Proof. apply omap_pointwise. intros id. by rewrite found_record. Qed.

Lemma scan_events_record repo verbose evs w ids :
  scan_events repo verbose (record evs w) ids = scan_events repo verbose w ids.
Proof. apply flat_map_pointwise. intros id. by rewrite found_record. Qed.

(** The loop returns, in the order of the directories, the instances
    that were reconstructed and the errors of those that were not. *)
Lemma scanInstances_run repo verbose ids : ∀ instances errs w,
  scanInstances repo verbose ids instances errs w
  = ((instances ++ reconstructed repo w ids, errs ++ failures repo w ids),
     record (scan_events repo verbose w ids) w).
Proof.
  induction ids as [|id ids IH]; intros instances errs w; simpl.
  - unfold ret, record. rewrite !app_nil_r. by destruct w.
  - unfold bind at 1. rewrite FindByID_run.
    unfold reconstructed, failures, scan_events; simpl.
    destruct (found repo w id) as [i|e] eqn:Hfound; simpl.
    + unfold bind at 1.
      assert (Hwhen : when verbose (emit (EvLog (foundLine id)))
                        (record [EvReadFile (InstanceConfigPath repo id)] w)
                      = (tt, record (EvReadFile (InstanceConfigPath repo id)
                                       :: (if verbose then [EvLog (foundLine id)] else []))
                               w)).
      { destruct verbose; simpl; [same_world|]. reflexivity. }
      rewrite Hwhen, IH.
      rewrite reconstructed_record, failures_record, scan_events_record.
      rewrite <- app_assoc, record_record. reflexivity.
    + unfold bind at 1. rewrite emit_run, record_record, IH.
      rewrite reconstructed_record, failures_record, scan_events_record.
      rewrite <- app_assoc, record_record. reflexivity.
Qed.

Lemma allInstances_run repo verbose w :
  match readdir_of w (brokerconfig.InstanceDataDirectory (RedisConf repo)) with
  | Ok entries =>
      allInstances repo verbose w
      = ((reconstructed repo w (subdirectories entries),
          failures repo w (subdirectories entries)),
         record
           (scan_head verbose (brokerconfig.InstanceDataDirectory (RedisConf repo))
            ++ scan_events repo verbose w (subdirectories entries)
            ++ (if verbose
                then [EvLog (countLine
                               (length (reconstructed repo w (subdirectories entries))))]
                else []))
           w)
  | Err e =>
      allInstances repo verbose w
      = (([], [e]),
         record (scan_head verbose (brokerconfig.InstanceDataDirectory (RedisConf repo))
                 ++ [EvLog (listingErrorLine e)]) w)
  end.
Proof.
  assert (Hwhen : ∀ l, when verbose (emit (EvLog l)) w
                       = (tt, record (if verbose then [EvLog l] else []) w)).
  { intros l. destruct verbose; simpl; [done|].
    unfold ret, record. rewrite app_nil_r. by destruct w. }
  destruct (readdir_of w (brokerconfig.InstanceDataDirectory (RedisConf repo)))
    as [entries|e] eqn:Hdir;
    unfold allInstances; unfold bind at 1; rewrite Hwhen;
    unfold bind at 1; rewrite ReadDir_run; seen_from w; rewrite Hdir.
  - unfold bind at 1. rewrite scanInstances_run. simpl.
    rewrite !reconstructed_record, !failures_record, !scan_events_record.
    unfold scan_head. destruct verbose; simpl; rewrite ?app_nil_r; same_world.
  - unfold scan_head. destruct verbose; simpl; same_world.
Qed.

Lemma scan_lengths repo w ids :
  length (failures repo w ids)
  = length (List.filter (λ id, negb (is_Ok (found repo w id))) ids)
  ∧ length (reconstructed repo w ids) + length (failures repo w ids) = length ids.
Proof.
  unfold reconstructed, failures.
  induction ids as [|id ids [IH1 IH2]]; csimpl; [done|].
  destruct (found repo w id); simpl; lia.
Qed.

Lemma reconstructed_elem repo w ids id i :
  id ∈ ids → found repo w id = Ok i → i ∈ reconstructed repo w ids.
Proof.
  intros Hin Hfound. unfold reconstructed. apply list_elem_of_omap.
  exists id. split; [done|]. by rewrite Hfound.
Qed.

(** C1: when the data directory holds [n] instance directories of which
    [k] cannot be reconstructed, [AllInstances] returns the [n - k]
    instances that can, and [k] errors, one for each that cannot; an
    instance that can be reconstructed is in the result whatever happens
    to the others. *)
Theorem AllInstances_partial_failure repo w entries n k :
  readdir_of w (brokerconfig.InstanceDataDirectory (RedisConf repo)) = Ok entries →
  length (subdirectories entries) = n →
  length (List.filter (λ id, negb (is_Ok (found repo w id))) (subdirectories entries)) = k →
  (AllInstances repo w).1
    = (reconstructed repo w (subdirectories entries),
       failures repo w (subdirectories entries))
  ∧ length (AllInstances repo w).1.1 = n - k
  ∧ length (AllInstances repo w).1.2 = k
  ∧ (∀ id i, id ∈ subdirectories entries → found repo w id = Ok i →
             i ∈ (AllInstances repo w).1.1)
  ∧ (∀ id e, id ∈ subdirectories entries → found repo w id = Err e →
             e ∈ (AllInstances repo w).1.2).
Proof.
  intros Hdir Hn Hk. unfold AllInstances.
  pose proof (allInstances_run repo false w) as Hrun.
  rewrite Hdir in Hrun. rewrite Hrun. simpl.
  destruct (scan_lengths repo w (subdirectories entries)) as [Hf Hsum].
  split; [done|]. split; [lia|]. split; [lia|]. split.
  - intros id i. apply reconstructed_elem.
  - intros id e Hin Hfound. unfold failures. apply list_elem_of_omap.
    exists id. split; [done|]. by rewrite Hfound.
Qed.

Lemma found_ID repo w id i : found repo w id = Ok i → ID i = id.
Proof.
  unfold found, FindByID, bind. rewrite Load_run.
  destruct (load_of w (InstanceConfigPath repo id)) as [conf|e]; [|done].
  destruct (strconv_Atoi (redisconf.Get conf "port")); [|done].
  by intros [= <-].
Qed.

(** Whatever the scan returns comes from one of the directories. *)
Lemma reconstructed_inv repo w ids i :
  i ∈ reconstructed repo w ids → ∃ id, id ∈ ids ∧ found repo w id = Ok i.
Proof.
  unfold reconstructed. intros (id & Hin & Hfound)%list_elem_of_omap.
  exists id. split; [done|]. by destruct (found repo w id); simplify_eq.
Qed.

Lemma failures_inv repo w ids e :
  e ∈ failures repo w ids → ∃ id, id ∈ ids ∧ found repo w id = Err e.
Proof.
  unfold failures. intros (id & Hin & Hfound)%list_elem_of_omap.
  exists id. split; [done|]. by destruct (found repo w id); simplify_eq.
Qed.

(** The verbose loop logs every instance it reconstructs. *)
Lemma scan_events_found repo w ids id i :
  id ∈ ids → found repo w id = Ok i →
  EvLog (foundLine id) ∈ scan_events repo true w ids.
Proof.
  unfold scan_events. induction ids as [|id' ids IH]; simpl.
  - by intros ?%elem_of_nil.
  - intros [->|Hin]%elem_of_cons Hfound; apply elem_of_cons; right; apply elem_of_app.
    + left. rewrite Hfound. by apply list_elem_of_singleton.
    + right. by apply IH.
Qed.

(** The loop logs every failure, whichever the variant. *)
Lemma scan_events_error repo verbose w ids id e :
  id ∈ ids → found repo w id = Err e →
  EvLog (errorLine id e) ∈ scan_events repo verbose w ids.
Proof.
  unfold scan_events. induction ids as [|id' ids IH]; simpl.
  - by intros ?%elem_of_nil.
  - intros [->|Hin]%elem_of_cons Hfound; apply elem_of_cons; right; apply elem_of_app.
    + left. rewrite Hfound. by apply list_elem_of_singleton.
    + right. by apply IH.
Qed.

Lemma scan_events_quiet repo w ids :
  scan_events repo false w ids
  = List.filter (λ ev, negb (is_info ev)) (scan_events repo true w ids).
Proof.
  unfold scan_events. induction ids as [|id ids IH]; simpl; [done|].
  destruct (found repo w id); simpl; by rewrite IH.
Qed.

Lemma scan_events_lines repo verbose w ids l :
  EvLog l ∈ scan_events repo verbose w ids →
  (∃ id, l = foundLine id ∧ verbose = true) ∨ (∃ id e, l = errorLine id e).
Proof.
  unfold scan_events. induction ids as [|id ids IH]; simpl.
  - by intros ?%elem_of_nil.
  - intros Hin. apply elem_of_cons in Hin as [[=]|Hin].
    apply elem_of_app in Hin as [Hin|Hin]; [|by apply IH].
    destruct (found repo w id) as [i|e].
    + destruct verbose; [|by apply elem_of_nil in Hin].
      apply list_elem_of_singleton in Hin as [= ->]. left. by exists id.
    + apply list_elem_of_singleton in Hin as [= ->]. right. by exists id, e.
Qed.

(** The lines of the log of a scan, whichever the variant. *)
Lemma allInstances_lines repo verbose w l :
  EvLog l ∈ new_events (allInstances repo verbose) w →
  (verbose = true ∧ verbose_line l) ∨ lager.level l = lager.ERROR.
Proof.
  pose proof (allInstances_run repo verbose w) as Hrun.
  destruct (readdir_of w _) as [entries|e];
    rewrite (new_events_record _ _ _ (w_fs w) _ Hrun); unfold scan_head.
  - rewrite !elem_of_app. intros [[Hin|Hin]|[Hin|Hin]].
    + destruct verbose; [|by apply elem_of_nil in Hin].
      apply list_elem_of_singleton in Hin as [= ->]. left. split; [done|constructor].
    + by apply list_elem_of_singleton in Hin.
    + apply scan_events_lines in Hin as [(id & -> & ->)|(id & e & ->)]; [left|by right].
      split; [done|constructor].
    + destruct verbose; [|by apply elem_of_nil in Hin].
      apply list_elem_of_singleton in Hin as [= ->]. left. split; [done|constructor].
  - rewrite !elem_of_app. intros [[Hin|Hin]|Hin].
    + destruct verbose; [|by apply elem_of_nil in Hin].
      apply list_elem_of_singleton in Hin as [= ->]. left. split; [done|constructor].
    + by apply list_elem_of_singleton in Hin.
    + apply list_elem_of_singleton in Hin as [= ->]. by right.
Qed.

Lemma verbose_line_info l : verbose_line l → lager.level l = lager.INFO.
Proof. by destruct 1. Qed.

(** C9, as amended: [AllInstances] and [AllInstancesVerbose] return the
    same instances and the same errors and leave the same tree; the trace
    of the first is the trace of the second without its INFO lines, which
    are the start-of-scan, per-instance and count lines, and the first
    writes none of these. The verbose variant does write them: the
    start-of-scan line naming the data directory, a per-instance line for
    every instance it returns and, when the data directory can be listed,
    the count line with the number of instances it returns. The lines
    that report a failure are written by both: for every error returned,
    the per-error line, or the line for a data directory that cannot be
    listed, is in the trace of the one and of the other. *)
Theorem AllInstances_and_Verbose repo w :
  (AllInstances repo w).1 = (AllInstancesVerbose repo w).1
  ∧ w_fs (AllInstances repo w).2 = w_fs (AllInstancesVerbose repo w).2
  ∧ new_events (AllInstances repo) w
    = List.filter (λ ev, negb (is_info ev)) (new_events (AllInstancesVerbose repo) w)
  ∧ (∀ l, EvLog l ∈ new_events (AllInstancesVerbose repo) w →
          lager.level l = lager.INFO → verbose_line l)
  ∧ (∀ l, EvLog l ∈ new_events (AllInstances repo) w → ¬ verbose_line l)
  ∧ EvLog (startLine (brokerconfig.InstanceDataDirectory (RedisConf repo)))
      ∈ new_events (AllInstancesVerbose repo) w
  ∧ (∀ i, i ∈ (AllInstancesVerbose repo w).1.1 →
          EvLog (foundLine (ID i)) ∈ new_events (AllInstancesVerbose repo) w)
  ∧ (is_Ok (readdir_of w (brokerconfig.InstanceDataDirectory (RedisConf repo))) = true →
     EvLog (countLine (length (AllInstancesVerbose repo w).1.1))
       ∈ new_events (AllInstancesVerbose repo) w)
  ∧ (∀ e, e ∈ (AllInstances repo w).1.2 →
          ∃ l, (l = listingErrorLine e ∨ ∃ id, l = errorLine id e)
               ∧ EvLog l ∈ new_events (AllInstances repo) w
               ∧ EvLog l ∈ new_events (AllInstancesVerbose repo) w).
Proof.
  unfold AllInstances, AllInstancesVerbose.
  pose proof (allInstances_run repo false w) as Hquiet.
  pose proof (allInstances_run repo true w) as Hloud.
  split; [|split; [|split; [|split; [|split]]]].
  - destruct (readdir_of w _); by rewrite Hquiet, Hloud.
  - destruct (readdir_of w _); by rewrite Hquiet, Hloud.
  - destruct (readdir_of w _) as [entries|e];
      rewrite (new_events_record _ _ _ (w_fs w) _ Hquiet),
              (new_events_record _ _ _ (w_fs w) _ Hloud);
      unfold scan_head; simpl; [|done].
    rewrite List.filter_app. simpl. rewrite !app_nil_r.
    by rewrite <- scan_events_quiet.
  - intros l Hin Hinfo.
    apply allInstances_lines in Hin as [[_ Hline]|Herr]; [done|].
    by rewrite Hinfo in Herr.
  - intros l Hin Hline.
    apply allInstances_lines in Hin as [[[=] _]|Herr].
    apply verbose_line_info in Hline. by rewrite Hline in Herr.
  - destruct (readdir_of w _) as [entries|e];
      rewrite (new_events_record _ _ _ (w_fs w) _ Hquiet),
              (new_events_record _ _ _ (w_fs w) _ Hloud), Hquiet, Hloud;
      unfold scan_head; simpl.
    + split; [by apply elem_of_cons; left|]. split; [|split].
      * intros i (id & Hin & Hfound)%reconstructed_inv.
        rewrite (found_ID _ _ _ _ Hfound).
        do 2 (apply elem_of_cons; right). apply elem_of_app; left.
        by eapply scan_events_found.
      * intros _. do 2 (apply elem_of_cons; right). apply elem_of_app; right.
        by apply list_elem_of_singleton.
      * intros e (id & Hin & Hfound)%failures_inv.
        exists (errorLine id e). split; [right; by exists id|]. split.
        -- apply elem_of_cons; right. rewrite app_nil_r.
           by apply scan_events_error.
        -- do 2 (apply elem_of_cons; right). apply elem_of_app; left.
           by apply scan_events_error.
    + split; [by apply elem_of_cons; left|]. split; [|split].
      * by intros i ?%elem_of_nil.
      * done.
      * intros e' ->%list_elem_of_singleton.
        exists (listingErrorLine e). split; [by left|]. split.
        -- apply elem_of_cons; right. by apply list_elem_of_singleton.
        -- do 2 (apply elem_of_cons; right). by apply list_elem_of_singleton.
Qed.
End RepositoryScan.

(** ** The theorems at work on concrete machines *)

Lemma snapshot_command_answers_intro `{Collaborators} b p w cf pt pw cl :
  load_of w (backup_paths.conf p) = Ok cf →
  read_of w (backup_paths.port p) = Ok pt →
  read_of w (backup_paths.password p) = Ok pw →
  client_Connect
    (brokerconfig.Host (brokerconfig.RedisConfiguration (backup.Config b)))
    (overlaid cf pt pw) = Ok cl →
  snapshot_command_answers b p w
    (client_CreateSnapshot cl
       (brokerconfig.BGSaveTimeoutSeconds (backup.backupConfiguration b)) (w_fs w)).1
    (client_CreateSnapshot cl
       (brokerconfig.BGSaveTimeoutSeconds (backup.backupConfiguration b)) (w_fs w)).2.
Proof.
  intros Hcf Hpt Hpw Hcl. exists cf, pt, pw, cl.
  repeat (split; [done|]). by destruct (client_CreateSnapshot _ _ _).
Qed.

Section BackupExamples.
Import demo demo_backup demo_values.

(** On [world] and on [world_unreachable] the snapshot command is issued,
  whatever the collaborators answer afterwards. *)
Lemma snapshot_issued_on_world bucketErr snapshotErr uploadErr dump :
let C := collaborators bucketErr None snapshotErr uploadErr dump in
@snapshot_command_answers C theBackup instancePath world
  (@client_CreateSnapshot C client_i1 600 (w_fs world)).1
  (@client_CreateSnapshot C client_i1 600 (w_fs world)).2.
Proof.
intros C.
apply (@snapshot_command_answers_intro C theBackup instancePath world
         conf_i1 (go_bytes "8080") (go_bytes "secret") client_i1);
  vm_compute; reflexivity.
Qed.

Lemma snapshot_issued_on_world_unreachable :
@snapshot_command_answers persisting theBackup instancePath world_unreachable
  (@client_CreateSnapshot persisting client_i1 600 (w_fs world_unreachable)).1
  (@client_CreateSnapshot persisting client_i1 600 (w_fs world_unreachable)).2.
Proof.
apply (@snapshot_command_answers_intro persisting theBackup instancePath world_unreachable
         conf_i1 (go_bytes "8080") (go_bytes "secret") client_i1);
  vm_compute; reflexivity.
Qed.

Lemma Create_skips_missing_artifact_witness :
(@backup.Create healthy theBackup instancePath "i1" world).1 = None
∧ EvLog (skipLine instancePath)
    ∈ new_events (@backup.Create healthy theBackup instancePath "i1") world
∧ none_of is_upload (new_events (@backup.Create healthy theBackup instancePath "i1") world).
Proof.
apply (@Create_skips_missing_artifact healthy theBackup instancePath "i1" world
         (w_fs world)).
- reflexivity.
- exact (snapshot_issued_on_world None None None None).
- vm_compute. reflexivity.
Defined.

Lemma Create_uploads_artifact_witness :
(@backup.Create persisting theBackup instancePath "i1" world).1
  = @s3_Upload persisting bucket_i1 dataset ("/home" +:+ "/" +:+ "i1")
∧ List.filter is_upload
    (new_events (@backup.Create persisting theBackup instancePath "i1") world)
  = [EvUpload bucket_i1 dataset ("/home" +:+ "/" +:+ "i1")].
Proof.
apply (@Create_uploads_artifact persisting theBackup instancePath "i1" world
         bucket_i1 tree_persisted dataset).
- reflexivity.
- exact (snapshot_issued_on_world None None None
           (Some (backup_paths.rdb instancePath, dataset))).
- vm_compute. reflexivity.
Defined.

Lemma Create_absorbs_stat_failure_witness :
(@backup.Create persisting theBackup instancePath "i1" world_unreachable).1 = None
∧ EvLog (skipLine instancePath)
    ∈ new_events (@backup.Create persisting theBackup instancePath "i1") world_unreachable
∧ none_of is_upload
    (new_events (@backup.Create persisting theBackup instancePath "i1") world_unreachable)
∧ none_of (λ ev, match ev with
                 | EvReadFile q => bool_decide (q = backup_paths.rdb instancePath)
                 | _ => false
                 end)
    (new_events (@backup.Create persisting theBackup instancePath "i1") world_unreachable).
Proof.
apply (@Create_absorbs_stat_failure persisting theBackup instancePath "i1"
         world_unreachable
         (@client_CreateSnapshot persisting client_i1 600 (w_fs world_unreachable)).2
         (PathError "stat" (backup_paths.rdb instancePath) EACCES)).
- reflexivity.
- exact snapshot_issued_on_world_unreachable.
- vm_compute. reflexivity.
- reflexivity.
Defined.

(** The four failures of C4, each on its machine. *)
Lemma Create_failure_order_witness :
((@backup.Create bucketDown theBackup instancePath "i1" world).1
   = Some (OtherError "bucket: access denied")
 ∧ none_of is_connect
     (new_events (@backup.Create bucketDown theBackup instancePath "i1") world))
∧ ((@backup.Create healthy theBackup instancePath "i1" world_no_port).1
     = Some (PathError "open" (backup_paths.port instancePath) ENOENT)
   ∧ none_of is_snapshot
       (new_events (@backup.Create healthy theBackup instancePath "i1") world_no_port))
∧ ((@backup.Create snapshotTimeout theBackup instancePath "i1" world).1
     = Some (OtherError "bgsave: timed out")
   ∧ none_of (is_access (backup_paths.rdb instancePath))
       (new_events (@backup.Create snapshotTimeout theBackup instancePath "i1") world)
   ∧ none_of is_upload
       (new_events (@backup.Create snapshotTimeout theBackup instancePath "i1") world))
∧ (read_of (set_fs tree_persisted world) (backup_paths.rdb instancePath)
     = Err (OtherError "upload: connection reset")
   ∨ ∃ content,
       read_of (set_fs tree_persisted world) (backup_paths.rdb instancePath) = Ok content
       ∧ @s3_Upload uploadFails bucket_i1 content (remotePathOf theBackup "i1")
         = Some (OtherError "upload: connection reset")).
Proof.
split; [|split; [|split]].
- apply (proj1 (@Create_failure_order bucketDown theBackup instancePath "i1" world)).
  reflexivity.
- apply (proj1 (proj2 (@Create_failure_order healthy theBackup instancePath "i1"
                         world_no_port))).
  + reflexivity.
  + right; left. split; vm_compute; reflexivity.
- apply (proj1 (proj2 (proj2 (@Create_failure_order snapshotTimeout theBackup
                                instancePath "i1" world)))
           _ (w_fs world)).
  + reflexivity.
  + exact (snapshot_issued_on_world None (Some (OtherError "bgsave: timed out"))
             None None).
- apply (proj1 (proj2 (proj2 (proj2 (@Create_failure_order uploadFails theBackup
                                       instancePath "i1" world))))
           _ tree_persisted bucket_i1).
  + reflexivity.
  + exact (snapshot_issued_on_world None None
             (Some (OtherError "upload: connection reset"))
             (Some (backup_paths.rdb instancePath, dataset))).
  + vm_compute. reflexivity.
Defined.
End BackupExamples.

Section RepositoryExamples.
Import demo demo_backup demo_values.

(** Three instances, the configuration file of one removed: the two
  others and one error. *)
Lemma AllInstances_partial_failure_witness :
(@redis.AllInstances healthy repo world3_broken).1
  = (@reconstructed healthy repo world3_broken (redis.subdirectories entries3),
     @failures healthy repo world3_broken (redis.subdirectories entries3))
∧ length (@redis.AllInstances healthy repo world3_broken).1.1 = 3 - 1
∧ length (@redis.AllInstances healthy repo world3_broken).1.2 = 1
∧ (∀ id i, id ∈ redis.subdirectories entries3 →
           @found healthy repo world3_broken id = Ok i →
           i ∈ (@redis.AllInstances healthy repo world3_broken).1.1)
∧ (∀ id e, id ∈ redis.subdirectories entries3 →
           @found healthy repo world3_broken id = Err e →
           e ∈ (@redis.AllInstances healthy repo world3_broken).1.2).
Proof.
apply (@AllInstances_partial_failure healthy repo world3_broken entries3 3 1);
  vm_compute; reflexivity.
Defined.



Lemma FindByID_absent_configuration_witness :
(∃ e, (@redis.FindByID healthy repo "i1" world0).1 = Err e
      ∧ os_IsNotExist (Some e) = true)
∧ (redis.InstanceExists repo "i1" world0).1 = (false, None).
Proof.
apply (@FindByID_absent_configuration healthy repo "i1" world0).
vm_compute. reflexivity.
Defined.

Lemma Delete_complete_witness :
(∀ loc, loc ∈ locations repo "i1" → absent (redis.Delete repo "i1" world_seeded).2 loc)
∧ (redis.Delete repo "i1" world0).1 = None.
Proof.
split.
- apply (proj1 (Delete_complete repo "i1" world_seeded)).
  vm_compute. reflexivity.
- apply (proj2 (Delete_complete repo "i1" world0)).
  intros loc Hloc. unfold locations in Hloc.
  apply elem_of_cons in Hloc as [->|Hloc]; [vm_compute; reflexivity|].
  apply elem_of_cons in Hloc as [->|Hloc]; [vm_compute; reflexivity|].
  apply list_elem_of_singleton in Hloc as ->. vm_compute. reflexivity.
Defined.

(** C9 as it stands does not hold: with three instances of which one has
    lost its configuration file, [AllInstances], the variant that is not
    verbose, writes one of the log lines of the scan, the per-error line. *)
Lemma AllInstances_logs_failures :
  ∃ l, EvLog l ∈ new_events (@redis.AllInstances healthy repo) world3_broken
       ∧ scan_line l.
Proof.
  exists (redis.errorLine "i1"
            (PathError "open" (redis.InstanceConfigPath repo "i1") ENOENT)).
  split.
  - apply list_elem_of_In. vm_compute. tauto.
  - apply scan_error.
Qed.
End RepositoryExamples.

(** * Further properties of the backup pipeline *)

Section BackupMore.
Context `{Collaborators}.
Import backup brokerconfig.

(** X1: whatever happens afterwards, the first call of [Create] is the
    bucket get-or-create, with the client built from the configured
    endpoint, region and keys and with the configured bucket name, and it
    is the only such call of the run: also a run that skips the backup has
    provisioned the bucket. *)
Theorem Create_provisions_bucket_first b p instanceID w :
  ∃ rest,
    new_events (Create b p instanceID) w
    = EvGetOrCreate
        (s3bucket.NewClient (EndpointUrl (backupConfiguration b))
           (S3Region (backupConfiguration b)) (AccessKeyId (backupConfiguration b))
           (SecretAccessKey (backupConfiguration b)))
        (BucketName (backupConfiguration b)) :: rest
    ∧ none_of is_getOrCreate rest.
Proof.
  destruct (Create_outcome b p instanceID w) as (err & evs & fs & Hout & Hrun).
  apply new_events_Create in Hrun as [_ ->].
  destruct Hout as [e Hb|bucket e evs fs Hb Hstage|bucket evs fs err evs' Hb Hstage Hart].
  - exists []. split; [done|]. calls_checked.
  - exists evs. split; [done|]. destruct Hstage; calls_checked.
  - exists (evs ++ evs'). split; [done|]. apply Forall_app. split.
    + destruct Hstage; calls_checked.
    + destruct Hart; calls_checked.
Qed.

(** X2: [Create] itself never writes: no file is written, no directory
    made, nothing removed; the tree changes only through the snapshot
    command of the data store, so a run in which that command is not
    issued leaves the tree as it was. *)
Theorem Create_reads_only b p instanceID w :
  none_of is_mutation (new_events (Create b p instanceID) w)
  ∧ w_denied (Create b p instanceID w).2 = w_denied w
  ∧ (none_of is_snapshot (new_events (Create b p instanceID) w) →
     w_fs (Create b p instanceID w).2 = w_fs w).
Proof.
  destruct (Create_outcome b p instanceID w) as (err & evs & fs & Hout & Hrun).
  pose proof (new_events_Create _ _ _ _ _ _ _ Hrun) as [_ Hevs].
  rewrite Hevs, Hrun. simpl. clear Hrun Hevs.
  destruct Hout as [e Hb|bucket e evs fs Hb Hstage|bucket evs fs err evs' Hb Hstage Hart].
  - split; [calls_checked|]. done.
  - split; [|split; [done|]].
    + apply Forall_cons_2; [done|]. destruct Hstage; calls_checked.
    + inversion Hstage; subst; try done.
      intros Hno. apply Forall_cons_1 in Hno as [_ Hno].
      do 4 apply Forall_cons_1 in Hno as [_ Hno]. by apply Forall_cons_1 in Hno as [? _].
  - split; [|split; [done|]].
    + apply Forall_cons_2; [done|]. apply Forall_app. split.
      * destruct Hstage; calls_checked.
      * destruct Hart; calls_checked.
    + inversion Hstage; subst.
      intros Hno. apply Forall_cons_1 in Hno as [_ Hno].
      do 4 apply Forall_cons_1 in Hno as [_ Hno]. by apply Forall_cons_1 in Hno as [? _].
Qed.
End BackupMore.

Lemma node_at_app fs p c rest : node_at fs (p ++ c :: rest) = fs !! (p ++ c :: rest).
Proof. by destruct p. Qed.

Section BackupMore2.
Context `{Collaborators}.
Import backup brokerconfig.

(** X3: when the configuration and both sidecar files are read and the
    data store refuses the connection, [Create] returns that error; no
    snapshot command is issued, the artifact is not looked at, nothing is
    uploaded and the tree is left as it was. *)
Theorem Create_connect_refused b p instanceID w cf pt pw e :
  is_Ok (getOrCreateBucket b w).1 = true →
  load_of w (backup_paths.conf p) = Ok cf →
  read_of w (backup_paths.port p) = Ok pt →
  read_of w (backup_paths.password p) = Ok pw →
  client_Connect (Host (RedisConfiguration (backup.Config b))) (overlaid cf pt pw) = Err e →
  (Create b p instanceID w).1 = Some e
  ∧ none_of is_snapshot (new_events (Create b p instanceID) w)
  ∧ none_of (is_access (backup_paths.rdb p)) (new_events (Create b p instanceID) w)
  ∧ none_of is_upload (new_events (Create b p instanceID) w)
  ∧ w_fs (Create b p instanceID w).2 = w_fs w.
Proof.
  intros Hbucket Hcf Hpt Hpw Hcl.
  destruct (Create_outcome b p instanceID w) as (err & evs & fs & Hout & Hrun).
  pose proof (new_events_Create _ _ _ _ _ _ _ Hrun) as [Herr Hevs].
  rewrite Herr, Hevs, Hrun. simpl. clear Hrun Herr Hevs.
  destruct Hout as [e0 Hb|bucket e0 evs fs Hb Hstage|bucket evs fs err evs' Hb Hstage Hart].
  - by rewrite Hb in Hbucket.
  - inversion Hstage; subst; agree.
    split; [done|]. unfold getOrCreateCall. repeat split; calls_checked.
  - inversion Hstage; subst; agree.
Qed.

(** X4: the data store is only ever connected to at the configured host
    and with the configuration of the instance overlaid with its sidecar
    files: whatever [redis.conf] says, the [port] and the [requirepass] of
    the connection are the contents of [redis-server.port] and
    [redis-server.password], and every other parameter is that of
    [redis.conf]. *)
Theorem Create_connects_with_sidecars b p instanceID w host conf :
  EvConnect host conf ∈ new_events (Create b p instanceID) w →
  host = Host (RedisConfiguration (backup.Config b))
  ∧ ∃ cf pt pw,
      load_of w (backup_paths.conf p) = Ok cf
      ∧ read_of w (backup_paths.port p) = Ok pt
      ∧ read_of w (backup_paths.password p) = Ok pw
      ∧ redisconf.Get conf "port" = go_string pt
      ∧ redisconf.Get conf "requirepass" = go_string pw
      ∧ ∀ key, key ≠ "port" → key ≠ "requirepass" →
               redisconf.Get conf key = redisconf.Get cf key.
Proof.
  intros Hin.
  destruct (Create_outcome b p instanceID w) as (err & evs & fs & Hout & Hrun).
  apply new_events_Create in Hrun as [_ Hevs]. rewrite Hevs in Hin. clear Hevs.
  assert (Hstage : ∃ err evs fs, snapshot_stage b p w err evs fs ∧ EvConnect host conf ∈ evs).
  { destruct Hout as [e0 Hb|bucket e0 evs fs Hb Hstage|bucket evs fs err evs' Hb Hstage Hart].
    - apply list_elem_of_singleton in Hin. done.
    - apply elem_of_cons in Hin as [[=]|Hin]. eauto.
    - apply elem_of_cons in Hin as [[=]|Hin].
      apply elem_of_app in Hin as [Hin|Hin]; [by eauto|].
      destruct Hart; repeat (apply elem_of_cons in Hin as [[=]|Hin]);
        by apply elem_of_nil in Hin. }
  clear Hout Hin. destruct Hstage as (err' & evs' & fs' & Hstage & Hin).
  assert (Hoverlay : ∀ cf pt pw,
    redisconf.Get (overlaid cf pt pw) "port" = go_string pt
    ∧ redisconf.Get (overlaid cf pt pw) "requirepass" = go_string pw
    ∧ ∀ key, key ≠ "port" → key ≠ "requirepass" →
             redisconf.Get (overlaid cf pt pw) key = redisconf.Get cf key).
  { intros cf pt pw. unfold overlaid. split; [|split].
    - by rewrite Get_Set_ne, Get_Set_eq.
    - by rewrite Get_Set_eq.
    - intros key Hk1 Hk2. by rewrite !Get_Set_ne. }
  destruct Hstage as [e' Hcf|cf e' Hcf Hpt|cf pt e' Hcf Hpt Hpw
                     |cf pt pw e' Hcf Hpt Hpw Hcl|cf pt pw cl err' fs' Hcf Hpt Hpw Hcl Hsn];
    repeat (apply elem_of_cons in Hin as [Heq|Hin]; [try discriminate Heq|]);
    try (by apply elem_of_nil in Hin);
    injection Heq as -> ->; destruct (Hoverlay cf pt pw) as (? & ? & ?);
    refine (conj eq_refl _); exists cf, pt, pw; done.
Qed.

(** X5: the existence check does not ask for a regular file. When the
    snapshot command has succeeded and a directory sits at
    [<instancePath>/db/dump.rdb], [Create] does not skip: it tries to read
    the directory and returns the error of that read, and uploads nothing. *)
Theorem Create_directory_at_artifact b p instanceID w fs1 :
  is_Ok (getOrCreateBucket b w).1 = true →
  snapshot_command_answers b p w None fs1 →
  w_denied w !! backup_paths.rdb p = None →
  fs1 !! backup_paths.rdb p = Some Dir →
  (Create b p instanceID w).1 = Some (PathError "read" (backup_paths.rdb p) EISDIR)
  ∧ ¬ (EvLog (skipLine p) ∈ new_events (Create b p instanceID) w)
  ∧ none_of is_upload (new_events (Create b p instanceID) w).
Proof.
  intros Hbucket Hsnap Hden Hdir.
  assert (Hstat : is_Ok (stat_of (set_fs fs1 w) (backup_paths.rdb p)) = true).
  { unfold stat_of; simpl. rewrite Hden. unfold backup_paths.rdb, path_Join in *.
    by rewrite node_at_app, Hdir. }
  assert (Hread : read_of (set_fs fs1 w) (backup_paths.rdb p)
                  = Err (PathError "read" (backup_paths.rdb p) EISDIR)).
  { unfold read_of; simpl. rewrite Hden. unfold backup_paths.rdb, path_Join in *.
    by rewrite node_at_app, Hdir. }
  destruct (Create_outcome b p instanceID w) as (err & evs & fs & Hout & Hrun).
  apply new_events_Create in Hrun as [-> ->].
  destruct Hout as [e0 Hb|bucket e0 evs fs Hb Hstage|bucket evs fs err evs' Hb Hstage Hart].
  - by rewrite Hb in Hbucket.
  - by destruct (snapshot_stage_answer _ _ _ _ _ _ _ _ Hsnap Hstage).
  - destruct (snapshot_stage_answer _ _ _ _ _ _ _ _ Hsnap Hstage) as [_ ->].
    destruct (snapshot_stage_calls _ _ _ _ _ _ Hstage) as [Hup _].
    destruct Hart as [e1 Hst Hex|e1 _ Hrd|content _ Hrd].
    + by rewrite Hst in Hstat.
    + rewrite Hread in Hrd. simplify_eq. split; [done|]. split.
      * intros Hin. apply elem_of_cons in Hin as [[=]|Hin].
        apply elem_of_app in Hin as [Hin|Hin].
        -- inversion Hstage; subst;
             repeat (apply elem_of_cons in Hin as [[=]|Hin]); by apply elem_of_nil in Hin.
        -- repeat (apply elem_of_cons in Hin as [[=]|Hin]). by apply elem_of_nil in Hin.
      * apply Forall_cons_2; [done|]. apply Forall_app. split; [done|calls_checked].
    + by rewrite Hread in Hrd.
Qed.
End BackupMore2.

Lemma append_inj_r (s a b : string) : s +:+ a = s +:+ b → a = b.
Proof. induction s as [|c s IH]; simpl; [done|]. intros [= Heq]. by apply IH. Qed.

Section BackupMore3.
Context `{Collaborators}.
Import backup brokerconfig.

(** What any upload of a run of [Create] is. *)
Lemma Create_upload_inv b p instanceID w bkt content remotePath :
  EvUpload bkt content remotePath ∈ new_events (Create b p instanceID) w →
  (getOrCreateBucket b w).1 = Ok bkt
  ∧ remotePath = Path (backupConfiguration b) +:+ "/" +:+ instanceID
  ∧ read_of (Create b p instanceID w).2 (backup_paths.rdb p) = Ok content
  ∧ EvLog (backingUpLine b p instanceID) ∈ new_events (Create b p instanceID) w
  ∧ (Create b p instanceID w).1 = s3_Upload bkt content remotePath.
Proof.
  intros Hin.
  destruct (Create_outcome b p instanceID w) as (err & evs & fs & Hout & Hrun).
  pose proof (new_events_Create _ _ _ _ _ _ _ Hrun) as [Herr Hevs].
  rewrite Herr, Hevs, Hrun in *. simpl. clear Hrun Herr Hevs.
  destruct Hout as [e0 Hb|bucket e0 evs fs Hb Hstage|bucket evs fs err evs' Hb Hstage Hart].
  - by apply list_elem_of_singleton in Hin.
  - apply elem_of_cons in Hin as [[=]|Hin].
    destruct (snapshot_stage_calls _ _ _ _ _ _ Hstage) as [Hup _].
    unfold none_of in Hup. rewrite Forall_forall in Hup. by apply Hup in Hin.
  - apply elem_of_cons in Hin as [[=]|Hin].
    apply elem_of_app in Hin as [Hin|Hin].
    { destruct (snapshot_stage_calls _ _ _ _ _ _ Hstage) as [Hup _].
      unfold none_of in Hup. rewrite Forall_forall in Hup. by apply Hup in Hin. }
    destruct Hart as [e1 Hst Hex|e1 _ Hrd|content' _ Hrd];
      repeat (apply elem_of_cons in Hin as [Heq|Hin]; [try discriminate Heq|]);
      try (by apply elem_of_nil in Hin).
    injection Heq as -> -> ->. split; [done|]. split; [done|]. split; [done|].
    split; [|done].
    apply elem_of_cons; right. apply elem_of_app; right.
    do 2 (apply elem_of_cons; right). apply elem_of_cons; by left.
Qed.

(** X6: whatever a run of [Create] uploads is the artifact: the bucket is
    the one the get-or-create returned, the remote path is
    [<prefix>/<instanceID>], the bytes are those of [db/dump.rdb] as the
    run leaves it, the source and the destination have been logged, and
    the result of the upload is the result of [Create]. *)
Theorem Create_uploads_only_the_artifact b p instanceID w bkt content remotePath :
  EvUpload bkt content remotePath ∈ new_events (Create b p instanceID) w →
  (getOrCreateBucket b w).1 = Ok bkt
  ∧ remotePath = Path (backupConfiguration b) +:+ "/" +:+ instanceID
  ∧ read_of (Create b p instanceID w).2 (backup_paths.rdb p) = Ok content
  ∧ EvLog (backingUpLine b p instanceID) ∈ new_events (Create b p instanceID) w
  ∧ (Create b p instanceID w).1 = s3_Upload bkt content remotePath.
Proof. apply Create_upload_inv. Qed.


(** X8: with one configuration, the backups of two instances never land on
    the same remote path: two runs of [Create] that upload to the same
    path are runs for the same instance id. *)
Theorem Create_remote_paths_apart b p1 p2 id1 id2 w1 w2 bkt1 bkt2 content1 content2 remotePath :
  EvUpload bkt1 content1 remotePath ∈ new_events (Create b p1 id1) w1 →
  EvUpload bkt2 content2 remotePath ∈ new_events (Create b p2 id2) w2 →
  id1 = id2.
Proof.
  intros Hin1 Hin2.
  apply Create_upload_inv in Hin1 as (_ & Hrp1 & _).
  apply Create_upload_inv in Hin2 as (_ & Hrp2 & _).
  rewrite Hrp1 in Hrp2. apply append_inj_r in Hrp2. by apply (append_inj_r "/") in Hrp2.
Qed.
End BackupMore3.

(** * Further properties of the repository, as its tests state them *)

Lemma last_char_app_pid (s : string) : last_char (s +:+ ".pid") = Some (Ascii.ascii_of_nat 100).
Proof.
  induction s as [|c s IH]; [reflexivity|].
  simpl. rewrite IH. by destruct (s +:+ ".pid").
Qed.

Section RepositoryMore.
Context `{Collaborators}.
Import redis.

Lemma pid_path_not_config repo instanceID :
  InstancePidFilePath repo instanceID ≠ InstanceConfigPath repo instanceID.
Proof.
  unfold InstancePidFilePath, InstanceConfigPath, InstanceBaseDir, path_Join.
  intros Heq. apply (f_equal (λ p, List.last p "")) in Heq.
  rewrite !List.last_last in Heq.
  apply (f_equal last_char) in Heq. by rewrite last_char_app_pid in Heq.
Qed.

(** The pid file the helper writes leaves the other files alone. *)
Lemma writeInstance_run instance repo w :
  (writeInstance instance repo w).1 = None →
  (writePath repo instance w).1 = None
  ∧ ∀ q, q ≠ InstancePidFilePath repo (ID instance) →
         read_of (writeInstance instance repo w).2 q = read_of (writePath repo instance w).2 q.
Proof.
  unfold writeInstance, writePath, bind.
  destruct (EnsureDirectoriesExist repo instance w) as [[e|] w1]; simpl; [done|].
  destruct (WriteConfigFile repo instance w1) as [[e|] w2]; simpl; [done|].
  match goal with
  | |- context [ioutil_WriteFile ?p ?c ?w'] =>
      destruct (WriteFile_run p c w') as [[Hrun Hden]|[e Hrun]]; rewrite Hrun; simpl
  end; [|done].
  intros _. split; [done|]. intros q Hq. unfold read_of; simpl.
  destruct (w_denied w2 !! q); [done|].
  destruct q as [|c q]; [done|]. simpl. by rewrite lookup_insert_ne.
Qed.

(** X9: the test "writes and then reads an instance". After
    [writeInstance] has succeeded (directories, configuration file, pid
    file), [FindByID] returns the instance that was written; the pid file
    does not disturb the configuration. The configuration syntax is
    required to read back what it printed. *)
Theorem FindByID_after_writeInstance repo instance w template :
  (writeInstance instance repo w).1 = None →
  load_of w (brokerconfig.DefaultConfigPath (RedisConf repo)) = Ok template →
  redisconf_parse (redisconf_print (instanceAdditions repo instance template))
    = Ok (instanceAdditions repo instance template) →
  (FindByID repo (ID instance) (writeInstance instance repo w).2).1 = Ok instance.
Proof.
  intros Hok Hload Hcodec.
  destruct (writeInstance_run instance repo w Hok) as [Hpath Hsame].
  destruct (writePath_config repo instance w Hpath) as (template' & Hload' & Hread).
  rewrite Hload in Hload'. simplify_eq.
  unfold FindByID, bind. rewrite Load_run.
  unfold load_of. seen_from (writeInstance instance repo w).2.
  rewrite Hsame by (intros Heq; symmetry in Heq; by apply pid_path_not_config in Heq).
  rewrite Hread, Hcodec.
  unfold instanceAdditions.
  rewrite Get_Set_ne, Get_Set_eq by done. rewrite Atoi_Itoa.
  rewrite Get_Set_eq.
  rewrite !Get_Set_ne, Get_Set_eq by done.
  by destruct instance.
Qed.

(** X10: the test "InstanceExists ... when instance exists". After the
    write path has succeeded, [InstanceExists] answers true and no error. *)
Theorem InstanceExists_after_writePath repo instance w :
  (writePath repo instance w).1 = None →
  (InstanceExists repo (ID instance) (writePath repo instance w).2).1 = (true, None).
Proof.
  intros Hok.
  destruct (writePath_config repo instance w Hok) as (template & _ & Hread).
  unfold InstanceExists, bind. rewrite ReadFile_run. by rewrite Hread.
Qed.
End RepositoryMore.

(** ** Directories *)

(** When [os.MkdirAll] returns nil, every directory on the way is there. *)
Lemma mkdir_all_made rest : ∀ pre fs a c b,
  (mkdir_all pre rest fs).1 = None →
  rest = a ++ c :: b →
  (mkdir_all pre rest fs).2 !! (pre ++ a ++ [c]) = Some Dir.
Proof.
  induction rest as [|c0 rest IH]; intros pre fs a c b Hok Hsplit.
  { by destruct a. }
  simpl in *.
  assert (Hstep : ∀ fs2, fs2 !! (pre ++ [c0]) = Some Dir →
            (mkdir_all (pre ++ [c0]) rest fs2).1 = None →
            (mkdir_all (pre ++ [c0]) rest fs2).2 !! (pre ++ a ++ [c]) = Some Dir).
  { intros fs2 Hd Hok2. destruct a as [|a0 a]; simplify_eq/=.
    - by apply mkdir_all_keeps.
    - specialize (IH (pre ++ [a0]) fs2 a c b Hok2 eq_refl).
      by rewrite <- app_assoc in IH. }
  destruct (fs !! (pre ++ [c0])) as [[content|]|] eqn:Hd; simpl in *; [done| |].
  - by apply Hstep.
  - apply Hstep; [by rewrite lookup_insert_eq|done].
Qed.

(** When they are all there, [os.MkdirAll] changes nothing. *)
Lemma mkdir_all_again rest : ∀ pre fs,
  (∀ a c b, rest = a ++ c :: b → fs !! (pre ++ a ++ [c]) = Some Dir) →
  mkdir_all pre rest fs = (None, fs).
Proof.
  induction rest as [|c0 rest IH]; intros pre fs Hall; simpl; [done|].
  pose proof (Hall [] c0 rest eq_refl) as Hd. simpl in Hd. rewrite Hd. apply IH.
  intros a c b ->. specialize (Hall (c0 :: a) c b eq_refl).
  by rewrite <- app_assoc.
Qed.

Lemma MkdirAll_ok p w w' :
  os_MkdirAll p w = (None, w') →
  w_denied w !! p = None
  ∧ (mkdir_all [] p (w_fs w)).1 = None
  ∧ w' = set_fs (mkdir_all [] p (w_fs w)).2 (record [EvMkdirAll p] w).
Proof.
  unfold os_MkdirAll, bind, ask, ret, with_fs; simpl.
  destruct (w_denied w !! p) as [e|]; simpl; [done|].
  destruct (mkdir_all [] p (w_fs w)) as [err fs1]; simpl. by intros [= -> <-].
Qed.

Lemma stat_directory w p c :
  w_denied w !! (p ++ [c]) = None →
  w_fs w !! (p ++ [c]) = Some Dir →
  stat_of w (p ++ [c]) = Ok (mkFileInfo c true).
Proof.
  intros Hden Hdir. unfold stat_of. rewrite Hden, node_at_snoc, Hdir.
  unfold base. by rewrite List.last_last.
Qed.

Section RepositoryDirectories.
Import redis.

Lemma EnsureDirectoriesExist_ok repo instance w w' :
  EnsureDirectoriesExist repo instance w = (None, w') →
  w_denied w' = w_denied w
  ∧ w_denied w !! InstanceDataDir repo (ID instance) = None
  ∧ w_denied w !! InstanceLogDir repo (ID instance) = None
  ∧ all_made (w_fs w') (InstanceDataDir repo (ID instance))
  ∧ all_made (w_fs w') (InstanceLogDir repo (ID instance)).
Proof.
  unfold EnsureDirectoriesExist, bind.
  destruct (os_MkdirAll (InstanceDataDir repo (ID instance)) w) as [[e|] w1] eqn:Hrun1;
    simpl; [done|].
  intros Hrun2.
  apply MkdirAll_ok in Hrun1 as (Hden1 & Hok1 & ->).
  apply MkdirAll_ok in Hrun2 as (Hden2 & Hok2 & ->).
  simpl in *. split; [done|]. split; [done|]. split; [done|]. split.
  - intros a c b Hs. apply mkdir_all_keeps.
    by apply (mkdir_all_made _ [] _ a c b Hok1).
  - intros a c b Hs. by apply (mkdir_all_made _ [] _ a c b Hok2).
Qed.

Lemma EnsureDirectoriesExist_again repo instance w :
  w_denied w !! InstanceDataDir repo (ID instance) = None →
  w_denied w !! InstanceLogDir repo (ID instance) = None →
  all_made (w_fs w) (InstanceDataDir repo (ID instance)) →
  all_made (w_fs w) (InstanceLogDir repo (ID instance)) →
  EnsureDirectoriesExist repo instance w
  = (None, record [EvMkdirAll (InstanceDataDir repo (ID instance));
                   EvMkdirAll (InstanceLogDir repo (ID instance))] w).
Proof.
  intros Hden1 Hden2 Hdata Hlog.
  unfold EnsureDirectoriesExist, os_MkdirAll, bind, ask, ret, with_fs; simpl.
  rewrite Hden1. rewrite (mkdir_all_again _ [] (w_fs w)) by done.
  simpl. rewrite Hden2. rewrite (mkdir_all_again _ [] (w_fs w)) by done.
  same_world.
Qed.

(** X11: the tests "creates the instance data directory", "creates the
    instance log directory" and "recreates the log directory". When
    [EnsureDirectoriesExist] returns nil, the [db] directory of the
    instance and its log directory are directories, whatever was missing
    before; and doing it again returns nil and leaves the tree as it is. *)
Theorem EnsureDirectoriesExist_makes_directories repo instance w :
  (EnsureDirectoriesExist repo instance w).1 = None →
  stat_of (EnsureDirectoriesExist repo instance w).2 (InstanceDataDir repo (ID instance))
    = Ok (mkFileInfo "db" true)
  ∧ stat_of (EnsureDirectoriesExist repo instance w).2 (InstanceLogDir repo (ID instance))
    = Ok (mkFileInfo (ID instance) true)
  ∧ (EnsureDirectoriesExist repo instance (EnsureDirectoriesExist repo instance w).2).1 = None
  ∧ w_fs (EnsureDirectoriesExist repo instance (EnsureDirectoriesExist repo instance w).2).2
    = w_fs (EnsureDirectoriesExist repo instance w).2.
Proof.
  destruct (EnsureDirectoriesExist repo instance w) as [e w'] eqn:Hrun. simpl. intros ->.
  apply EnsureDirectoriesExist_ok in Hrun as (Hden & Hden1 & Hden2 & Hdata & Hlog).
  rewrite <- Hden in Hden1, Hden2.
  rewrite (EnsureDirectoriesExist_again repo instance w') by done.
  split; [|split; [|done]].
  - unfold InstanceDataDir, path_Join in *. apply stat_directory; [done|].
    by apply (Hdata _ "db" []).
  - unfold InstanceLogDir, path_Join in *. apply stat_directory; [done|].
    by apply (Hlog _ (ID instance) []).
Qed.
End RepositoryDirectories.

(** ** Listings *)

(** The subdirectories that [ioutil.ReadDir] lists are the directories
    directly below. *)
Lemma subdirectories_children fs d name :
  name ∈ redis.subdirectories (children fs d) ↔ fs !! (d ++ [name]) = Some Dir.
Proof.
  unfold redis.subdirectories, children. rewrite list_elem_of_fmap. split.
  - intros (fi & -> & Hin). apply list_elem_of_In, List.filter_In in Hin as [Hin Hdir].
    apply list_elem_of_In, list_elem_of_omap in Hin as ([k n] & Hkv & Hfi).
    apply elem_of_map_to_list in Hkv. simpl in Hfi.
    case_bool_decide as Hk; [|done]. destruct Hk as [Hne <-].
    injection Hfi as <-. simpl in *.
    unfold parent, base.
    rewrite <- (List.app_removelast_last "/" Hne).
    by destruct n.
  - intros Hdir. exists (mkFileInfo name true). split; [done|].
    apply list_elem_of_In, List.filter_In. split; [|done].
    apply list_elem_of_In, list_elem_of_omap. exists (d ++ [name], Dir). split.
    + by apply elem_of_map_to_list.
    + simpl. unfold parent, base. rewrite List.removelast_last, List.last_last.
      rewrite bool_decide_eq_true_2; [done|]. split; [by destruct d|done].
Qed.

Section RepositoryListing.
Context `{Collaborators}.
Import redis.

Lemma reconstructed_ID repo w ids i : i ∈ reconstructed repo w ids → ID i ∈ ids.
Proof.
  unfold reconstructed. intros (id & Hin & Hfound)%list_elem_of_omap.
  destruct (found repo w id) as [i'|e] eqn:Hf; [|done]. simplify_eq.
  by rewrite (found_ID _ _ _ _ Hf).
Qed.

(** X12: the tests "when getting the data directories fails". When the
    data directory cannot be listed, both variants of the scan return no
    instance and exactly one error, that of the listing, and both log the
    line "Error finding shared instances" with it. *)
Theorem allInstances_unlistable repo verbose w e :
  readdir_of w (brokerconfig.InstanceDataDirectory (RedisConf repo)) = Err e →
  (allInstances repo verbose w).1 = ([], [e])
  ∧ EvLog (lager.mkLine lager.ERROR "Error finding shared instances" (Some e) [])
      ∈ new_events (allInstances repo verbose) w.
Proof.
  intros Hdir. pose proof (allInstances_run repo verbose w) as Hrun.
  rewrite Hdir in Hrun.
  rewrite (new_events_record _ _ _ (w_fs w) _ Hrun), Hrun. split; [done|].
  apply elem_of_app; right. by apply list_elem_of_singleton.
Qed.

(** X13: the tests "logs the instance count". When the data directory can
    be listed, the last line of the verbose scan is the count line, and
    the count it gives is the number of instances that the scan returns;
    with no subdirectory, the scan returns no instance and no error. *)
Theorem AllInstancesVerbose_count repo w entries :
  readdir_of w (brokerconfig.InstanceDataDirectory (RedisConf repo)) = Ok entries →
  last (new_events (AllInstancesVerbose repo) w)
    = Some (EvLog (countLine (length (AllInstancesVerbose repo w).1.1)))
  ∧ (subdirectories entries = [] → (AllInstancesVerbose repo w).1 = ([], [])).
Proof.
  intros Hdir. unfold AllInstancesVerbose.
  pose proof (allInstances_run repo true w) as Hrun.
  rewrite Hdir in Hrun.
  rewrite (new_events_record _ _ _ (w_fs w) _ Hrun), Hrun. simpl. split.
  - by rewrite app_comm_cons, last_snoc.
  - by intros ->.
Qed.

(** X14: the tests "does not contain deleted instances". After [Delete]
    has succeeded for an id, no instance that [AllInstances] returns has
    that id. (The directory of the instance is taken to be reachable: the
    kernel does not answer for it in place of the tree.) *)
Theorem AllInstances_after_Delete repo instanceID w :
  (Delete repo instanceID w).1 = None →
  w_denied w !! InstanceBaseDir repo instanceID = None →
  Forall (λ i, ID i ≠ instanceID) (AllInstances repo (Delete repo instanceID w).2).1.1.
Proof.
  intros Hok Hden. apply Forall_forall. intros i.
  destruct (Delete_run repo instanceID w)
    as (e1 & e2 & e3 & fs1 & fs2 & fs3 & evs & Hrun & (Hnew1 & Hnew2 & Hnew3)
        & (Hgone1 & _ & _) & _).
  rewrite Hrun in *. simpl in Hok. apply firstError_None in Hok as (-> & -> & ->).
  destruct (Hgone1 eq_refl) as [Hd|[_ Hgone]]; [by rewrite Hden in Hd|].
  simpl. unfold AllInstances.
  pose proof (allInstances_run repo false (set_fs fs3 (record evs w))) as Hscan.
  destruct (readdir_of _ _) as [entries|e] eqn:Hdir; rewrite Hscan; simpl.
  - intros Hin%reconstructed_ID Heq. rewrite Heq in Hin.
    revert Hdir. unfold readdir_of; simpl.
    destruct (w_denied w !! brokerconfig.InstanceDataDirectory _); [done|].
    destruct (node_at fs3 _) as [[|]|]; try done. intros [= <-].
    apply subdirectories_children in Hin.
    pose proof (Hnew3 _ (Hnew2 _ (Hgone _ (is_prefix_refl _)))) as Hnone.
    unfold InstanceBaseDir, path_Join in Hnone. by rewrite Hnone in Hin.
  - by intros ?%elem_of_nil.
Qed.
End RepositoryListing.


Section RepositoryEnumerates.
Context `{Collaborators}.
Import redis.

End RepositoryEnumerates.

(** ** The further properties at work on concrete machines *)

Section BackupMoreExamples.
Import demo demo_backup demo_values demo_more.

Lemma snapshot_issued_on_world_rdb_dir :
  @snapshot_command_answers healthy theBackup instancePath world_rdb_dir
    (@client_CreateSnapshot healthy client_i1 600 (w_fs world_rdb_dir)).1
    (@client_CreateSnapshot healthy client_i1 600 (w_fs world_rdb_dir)).2.
Proof.
  apply (@snapshot_command_answers_intro healthy theBackup instancePath world_rdb_dir
           conf_i1 (go_bytes "8080") (go_bytes "secret") client_i1);
    vm_compute; reflexivity.
Qed.

(** With the sidecar file of the port missing, no snapshot command is
    issued, and the tree is as it was. *)
Lemma Create_reads_only_witness :
  none_of is_snapshot
    (new_events (@backup.Create healthy theBackup instancePath "i1") world_no_port)
  ∧ w_fs (@backup.Create healthy theBackup instancePath "i1" world_no_port).2
    = w_fs world_no_port.
Proof.
  assert (Hno : none_of is_snapshot
                  (new_events (@backup.Create healthy theBackup instancePath "i1")
                     world_no_port)).
  { vm_compute. repeat constructor. }
  split; [exact Hno|].
  exact (proj2 (proj2 (@Create_reads_only healthy theBackup instancePath "i1"
                         world_no_port)) Hno).
Defined.

Lemma Create_connect_refused_witness :
  (@backup.Create connectRefused theBackup instancePath "i1" world).1
    = Some (OtherError "dial tcp: connection refused")
  ∧ none_of is_snapshot
      (new_events (@backup.Create connectRefused theBackup instancePath "i1") world)
  ∧ none_of (is_access (backup_paths.rdb instancePath))
      (new_events (@backup.Create connectRefused theBackup instancePath "i1") world)
  ∧ none_of is_upload
      (new_events (@backup.Create connectRefused theBackup instancePath "i1") world)
  ∧ w_fs (@backup.Create connectRefused theBackup instancePath "i1" world).2 = w_fs world.
Proof.
  apply (@Create_connect_refused connectRefused theBackup instancePath "i1" world
           conf_i1 (go_bytes "8080") (go_bytes "secret"));
    vm_compute; reflexivity.
Defined.

Lemma Create_connects_with_sidecars_witness :
  "127.0.0.1"
    = brokerconfig.Host (brokerconfig.RedisConfiguration (backup.Config theBackup))
  ∧ ∃ cf pt pw,
      @load_of healthy world (backup_paths.conf instancePath) = Ok cf
      ∧ read_of world (backup_paths.port instancePath) = Ok pt
      ∧ read_of world (backup_paths.password instancePath) = Ok pw
      ∧ redisconf.Get (overlaid conf_i1 (go_bytes "8080") (go_bytes "secret")) "port"
        = go_string pt
      ∧ redisconf.Get (overlaid conf_i1 (go_bytes "8080") (go_bytes "secret")) "requirepass"
        = go_string pw
      ∧ ∀ key, key ≠ "port" → key ≠ "requirepass" →
               redisconf.Get (overlaid conf_i1 (go_bytes "8080") (go_bytes "secret")) key
               = redisconf.Get cf key.
Proof.
  apply (@Create_connects_with_sidecars healthy theBackup instancePath "i1" world).
  apply list_elem_of_In. vm_compute. tauto.
Defined.

Lemma Create_directory_at_artifact_witness :
  (@backup.Create healthy theBackup instancePath "i1" world_rdb_dir).1
    = Some (PathError "read" (backup_paths.rdb instancePath) EISDIR)
  ∧ ¬ (EvLog (skipLine instancePath)
         ∈ new_events (@backup.Create healthy theBackup instancePath "i1") world_rdb_dir)
  ∧ none_of is_upload
      (new_events (@backup.Create healthy theBackup instancePath "i1") world_rdb_dir).
Proof.
  apply (@Create_directory_at_artifact healthy theBackup instancePath "i1" world_rdb_dir
           (@client_CreateSnapshot healthy client_i1 600 (w_fs world_rdb_dir)).2).
  - reflexivity.
  - exact snapshot_issued_on_world_rdb_dir.
  - vm_compute. reflexivity.
  - vm_compute. reflexivity.
Defined.

Lemma Create_uploads_only_the_artifact_witness :
  (@backup.getOrCreateBucket persisting theBackup world).1 = Ok bucket_i1
  ∧ "/home/i1"
    = brokerconfig.Path (backup.backupConfiguration theBackup) +:+ "/" +:+ "i1"
  ∧ read_of (@backup.Create persisting theBackup instancePath "i1" world).2
      (backup_paths.rdb instancePath) = Ok dataset
  ∧ EvLog (backingUpLine theBackup instancePath "i1")
      ∈ new_events (@backup.Create persisting theBackup instancePath "i1") world
  ∧ (@backup.Create persisting theBackup instancePath "i1" world).1
    = @s3_Upload persisting bucket_i1 dataset "/home/i1".
Proof.
  apply (@Create_uploads_only_the_artifact persisting theBackup instancePath "i1" world).
  apply list_elem_of_In. vm_compute. tauto.
Defined.


(** Two runs that upload to [/home/i1] are runs for [i1]. *)
Lemma Create_remote_paths_apart_witness : "i1" = "i1".
Proof.
  apply (@Create_remote_paths_apart persisting theBackup instancePath instancePath
           "i1" "i1" world world bucket_i1 bucket_i1 dataset dataset "/home/i1");
    apply list_elem_of_In; vm_compute; tauto.
Defined.
End BackupMoreExamples.

Section RepositoryMoreExamples.
Import demo demo_backup demo_values demo_more.

Lemma FindByID_after_writeInstance_witness :
  (@redis.FindByID healthy repo "i1"
     (@redis.writeInstance healthy instance1 repo world0).2).1 = Ok instance1.
Proof.
  apply (@FindByID_after_writeInstance healthy repo instance1 world0 template0);
    vm_compute; reflexivity.
Defined.

Lemma InstanceExists_after_writePath_witness :
  (redis.InstanceExists repo "i1" (@redis.writePath healthy repo instance1 world0).2).1
  = (true, None).
Proof.
  apply (@InstanceExists_after_writePath healthy repo instance1 world0).
  vm_compute. reflexivity.
Defined.

Lemma EnsureDirectoriesExist_makes_directories_witness :
  stat_of (redis.EnsureDirectoriesExist repo instance1 world0).2
    (redis.InstanceDataDir repo "i1") = Ok (mkFileInfo "db" true)
  ∧ stat_of (redis.EnsureDirectoriesExist repo instance1 world0).2
      (redis.InstanceLogDir repo "i1") = Ok (mkFileInfo "i1" true)
  ∧ (redis.EnsureDirectoriesExist repo instance1
       (redis.EnsureDirectoriesExist repo instance1 world0).2).1 = None
  ∧ w_fs (redis.EnsureDirectoriesExist repo instance1
            (redis.EnsureDirectoriesExist repo instance1 world0).2).2
    = w_fs (redis.EnsureDirectoriesExist repo instance1 world0).2.
Proof.
  apply (EnsureDirectoriesExist_makes_directories repo instance1 world0).
  vm_compute. reflexivity.
Defined.

(** Without its data directory, the scan returns the error of the listing. *)
Lemma allInstances_unlistable_witness :
  (@redis.allInstances healthy repo false world_no_data).1
    = ([], [PathError "open" (brokerconfig.InstanceDataDirectory redisConf) ENOENT])
  ∧ EvLog (lager.mkLine lager.ERROR "Error finding shared instances"
             (Some (PathError "open" (brokerconfig.InstanceDataDirectory redisConf) ENOENT))
             [])
      ∈ new_events (@redis.allInstances healthy repo false) world_no_data.
Proof.
  apply (@allInstances_unlistable healthy repo false world_no_data).
  vm_compute. reflexivity.
Defined.

(** The count of three instances of which one is broken, and the scan of
    an empty data directory. *)
Lemma AllInstancesVerbose_count_witness :
  last (new_events (@redis.AllInstancesVerbose healthy repo) world3_broken)
    = Some (EvLog (redis.countLine
                     (length (@redis.AllInstancesVerbose healthy repo world3_broken).1.1)))
  ∧ (@redis.AllInstancesVerbose healthy repo world0).1 = ([], []).
Proof.
  split.
  - apply (proj1 (@AllInstancesVerbose_count healthy repo world3_broken entries3
                    ltac:(vm_compute; reflexivity))).
  - apply (proj2 (@AllInstancesVerbose_count healthy repo world0 []
                    ltac:(vm_compute; reflexivity))).
    reflexivity.
Defined.

(** Of three instances the first is deleted: the two that are listed are
    the others. *)
Lemma AllInstances_after_Delete_witness :
  Forall (λ i, redis.ID i ≠ "i1")
    (@redis.AllInstances healthy repo (redis.Delete repo "i1" world3).2).1.1
  ∧ length (@redis.AllInstances healthy repo (redis.Delete repo "i1" world3).2).1.1 = 2.
Proof.
  split.
  - apply (@AllInstances_after_Delete healthy repo "i1" world3); vm_compute; reflexivity.
  - vm_compute. reflexivity.
Defined.

End RepositoryMoreExamples.

(** ** The amended claims on concrete machines *)

Section AmendedExamples.
Import demo demo_backup demo_values demo_more.


(** Three instances, the configuration file of the first removed: what
    the verbose scan writes, and the failure line in both traces. *)
Lemma AllInstances_and_Verbose_witness :
  EvLog (redis.startLine (brokerconfig.InstanceDataDirectory redisConf))
    ∈ new_events (@redis.AllInstancesVerbose healthy repo) world3_broken
  ∧ EvLog (redis.foundLine "i2")
      ∈ new_events (@redis.AllInstancesVerbose healthy repo) world3_broken
  ∧ EvLog (redis.countLine
             (length (@redis.AllInstancesVerbose healthy repo world3_broken).1.1))
      ∈ new_events (@redis.AllInstancesVerbose healthy repo) world3_broken
  ∧ ∃ l, (l = redis.listingErrorLine
                (PathError "open" (redis.InstanceConfigPath repo "i1") ENOENT)
          ∨ ∃ id, l = redis.errorLine id
                        (PathError "open" (redis.InstanceConfigPath repo "i1") ENOENT))
         ∧ EvLog l ∈ new_events (@redis.AllInstances healthy repo) world3_broken
         ∧ EvLog l ∈ new_events (@redis.AllInstancesVerbose healthy repo) world3_broken.
Proof.
  pose proof (@AllInstances_and_Verbose healthy repo world3_broken)
    as (_ & _ & _ & _ & _ & Hstart & Hfound & Hcount & Herror).
  split; [exact Hstart|]. split; [|split].
  - apply (Hfound (redis.mkInstance "i2" "127.0.0.1" 8080 "")).
    apply list_elem_of_In. vm_compute. tauto.
  - apply Hcount. vm_compute. reflexivity.
  - apply Herror. apply list_elem_of_In. vm_compute. tauto.
Defined.
End AmendedExamples.
